(** * ProjectMatch.TaxonomySelector: selection-state bookkeeping

    Shallow embedding of the selection state kept by the taxonomy selector
    ([self.selectedItemsData], [self.selectedTaxonomy]) and of the operations
    that mutate it: [selectItem], [unselectItem], [indexOfNamedItems] and the
    read done by [renderSelected].

    Conventions of the embedding:
    - a JavaScript object used as a dictionary is a [gmap string _] holding
      its own properties; a read that finds no own property goes on to
      [Object.prototype], whose property names are listed in
      [object_prototype_keys];
    - an array is a [list (option item)]: [None] is a hole, the slot that
      [delete a[k]] leaves behind (the length of the array is unchanged);
    - numbers that are array positions (or the sentinel [-1]) are in [Z];
    - a call either completes normally or throws; a throw keeps whatever
      mutation happened before it. *)

From stdpp Require Import gmap strings list fin_maps.
From Stdlib Require Import ZArith Lia.

Local Open Scope string_scope.
Local Open Scope list_scope.

(** ** Data model *)

(** [{name: itemName}], the record pushed by [selectItem]. *)
Record item : Type := Item { item_name : string }.

(** [{name: parentItemName, items: [...]}]. *)
Record sectionRecord : Type := SectionRecord {
  section_name : string;
  items : list (option item)
}.

(** [{name: taxonomyName, itemsBySection: {...}}]. *)
Record taxonomyData : Type := TaxonomyData {
  taxonomy_name : string;
  itemsBySection : gmap string sectionRecord
}.

(** The module-level mutable state of [ProjectMatch.TaxonomySelector]. *)
Record State : Type := MkState {
  selectedTaxonomy : option string;
  selectedItemsData : gmap string taxonomyData
}.

(** [self.taxonomies]. *)
Definition taxonomies : list string := ["skills"; "learnSkills"; "interests"].

(** The [forEach] over [self.taxonomies] that fills [self.selectedItemsData]. *)
Definition init_selectedItemsData : gmap string taxonomyData :=
  foldl (fun acc taxonomyName =>
           <[taxonomyName := TaxonomyData taxonomyName ∅]> acc)
        ∅ taxonomies.

(** The state once the module is loaded; [self.selectedTaxonomy] is set later
    by the click handlers installed in [self.init]. *)
Definition init_state (sel : option string) : State :=
  MkState sel init_selectedItemsData.

(** ** Completions and the state-and-exception monad *)

Inductive error : Type := TypeError.

Inductive completion (A : Type) : Type :=
| Normal (a : A)
| Throw (e : error).
Arguments Normal {A} a.
Arguments Throw {A} e.

Definition js (A : Type) : Type := State -> State * completion A.

Definition js_ret {A} (a : A) : js A := fun st => (st, Normal a).
Definition js_lift {A} (c : completion A) : js A := fun st => (st, c).
Definition js_bind {A B} (m : js A) (k : A -> js B) : js B :=
  fun st => match m st with
            | (st', Normal a) => k a st'
            | (st', Throw e) => (st', Throw e)
            end.

Declare Scope js_scope.
Delimit Scope js_scope with js.
Notation "'do' x <- m ; k" := (js_bind m (fun x => k))
  (at level 10, x name, m at level 100, k at level 200) : js_scope.
Notation "'exec' m ; k" := (js_bind m (fun _ => k))
  (at level 10, m at level 100, k at level 200) : js_scope.

(** ** Property reads on plain objects *)

(** The property names that every plain object inherits from
    [Object.prototype], as ECMAScript (with its Annex B, which browsers
    implement) defines them. *)
Definition object_prototype_keys : list string :=
  ["constructor"; "hasOwnProperty"; "isPrototypeOf"; "propertyIsEnumerable";
   "toLocaleString"; "toString"; "valueOf"; "__proto__";
   "__defineGetter__"; "__defineSetter__";
   "__lookupGetter__"; "__lookupSetter__"].

(** What [o[k]] finds on an object literal [o]: an own property; or the
    value inherited from [Object.prototype] (a function, or for
    ["__proto__"] the prototype itself: truthy, and without any of the
    properties [itemsBySection], [items] that the code reads next); or
    nothing ([undefined]). *)
Inductive property (A : Type) : Type :=
| Own (a : A)
| Inherited
| Absent.
Arguments Own {A} a.
Arguments Inherited {A}.
Arguments Absent {A}.

Definition get_property {A} (o : gmap string A) (k : string) : property A :=
  match o !! k with
  | Some a => Own a
  | None => if bool_decide (k ∈ object_prototype_keys) then Inherited else Absent
  end.

(** ** Primitive accesses *)

(** [self.selectedItemsData[t]['itemsBySection']]: [undefined] when
    [self.selectedItemsData[t]] is an inherited value; reading a property
    of [undefined] throws. *)
Definition get_itemsBySection (t : string)
    : js (option (gmap string sectionRecord)) :=
  fun st => match get_property (selectedItemsData st) t with
            | Own data => (st, Normal (Some (itemsBySection data)))
            | Inherited => (st, Normal None)
            | Absent => (st, Throw TypeError)
            end.

(** [self.selectedItemsData[t]['itemsBySection'][p]]. *)
Definition get_section (t p : string) : js (property sectionRecord) :=
  fun st => match get_itemsBySection t st with
            | (st', Normal (Some secs)) => (st', Normal (get_property secs p))
            | (st', Normal None) => (st', Throw TypeError)
            | (st', Throw e) => (st', Throw e)
            end.

(** [data['itemsBySection'][p] = sec], through the reference [data]; used
    where [p] is read as [undefined] before (the assignment creates an own
    property) or names an own record (the array of that record changes in
    place). *)
Definition set_section (t p : string) (sec : sectionRecord) : js unit :=
  fun st => match selectedItemsData st !! t with
            | Some data =>
                (MkState (selectedTaxonomy st)
                   (<[t := TaxonomyData (taxonomy_name data)
                             (<[p := sec]> (itemsBySection data))]>
                      (selectedItemsData st)),
                 Normal tt)
            | None => (st, Throw TypeError)
            end.

(** [data['itemsBySection'][p]['items']]: [undefined] on an inherited
    value. *)
Definition get_items (t p : string) : js (option (list (option item))) :=
  fun st => match get_section t p st with
            | (st', Normal (Own sec)) => (st', Normal (Some (items sec)))
            | (st', Normal Inherited) => (st', Normal None)
            | (st', Normal Absent) => (st', Throw TypeError)
            | (st', Throw e) => (st', Throw e)
            end.

(** In-place change of the array [data['itemsBySection'][p]['items']]. *)
Definition set_items (t p : string) (a : list (option item)) : js unit :=
  fun st => match selectedItemsData st !! t with
            | Some data =>
                match itemsBySection data !! p with
                | Some sec => set_section t p (SectionRecord (section_name sec) a) st
                | None => (st, Throw TypeError)
                end
            | None => (st, Throw TypeError)
            end.

(** ** Array helpers *)

(** [x === o] for a primitive string [x] and an array element [o] that is an
    object: operands of different types are never strictly equal. *)
Definition strict_equals_string_object (x : string) (o : item) : bool := false.

(** [Array.prototype.indexOf] with a string as search element: holes are
    skipped, present elements are compared with [===]. *)
Fixpoint indexOf_from (k : Z) (a : list (option item)) (x : string) : Z :=
  match a with
  | [] => (-1)%Z
  | None :: a' => indexOf_from (k + 1)%Z a' x
  | Some o :: a' =>
      if strict_equals_string_object x o then k
      else indexOf_from (k + 1)%Z a' x
  end.

Definition indexOf (a : list (option item)) (x : string) : Z :=
  indexOf_from 0%Z a x.

(** Truthiness of a number in an [if]: every number but [0] (positions and
    [-1] are never [NaN]). *)
Definition truthy (n : Z) : bool := negb (n =? 0)%Z.

(** [a.push(o)]. *)
Definition push (a : list (option item)) (o : item) : list (option item) :=
  a ++ [Some o].

(** [delete a[k]]: an existing slot becomes a hole, the length is kept; a
    position that is not a property of the array (such as [-1]) is left
    alone. *)
Definition delete_index (a : list (option item)) (k : Z) : list (option item) :=
  if (k <? 0)%Z then a else <[Z.to_nat k := None]> a.

(** [self.indexOfNamedItems]: the loop [for (i=0; i<items.length; i++)]
    started at position [i]. Reading [items[i].name] on a hole throws. *)
Fixpoint indexOfNamedItems_from (i : Z) (its : list (option item))
    (name : string) : completion Z :=
  match its with
  | [] => Normal (-1)%Z
  | None :: _ => Throw TypeError
  | Some o :: rest =>
      if String.eqb (item_name o) name then Normal i
      else indexOfNamedItems_from (i + 1)%Z rest name
  end.

Definition indexOfNamedItems (its : list (option item)) (name : string)
    : completion Z :=
  indexOfNamedItems_from 0%Z its name.

(** ** Operations *)

Local Open Scope js_scope.

(** A value used as property key is converted to a string: [undefined]
    becomes the key ["undefined"]. *)
Definition property_key (v : option string) : string :=
  default "undefined" v.

(** Truthiness of a string-valued property: [undefined] and the empty
    string are falsy. *)
Definition truthy_string (v : option string) : bool :=
  match v with
  | Some x => negb (String.eqb x "")
  | None => false
  end.

(** [a || b]. *)
Definition or_else (a b : option string) : option string :=
  if truthy_string a then a else b.

(** The [context] object handed to the template; its [itemsBySection] is
    [undefined] ([None]) when read off an inherited value. *)
Record selectedContext : Type := SelectedContext {
  taxonomyName : option string;
  context_itemsBySection : option (gmap string sectionRecord)
}.

(** [self.renderSelected(selectedTaxonomy)] up to the construction of
    [context]: the argument, when truthy, wins over
    [self.selectedTaxonomy]. *)
Definition renderSelected_context (arg : option string) : js selectedContext :=
  fun st =>
    let selectedTaxonomy := or_else arg (selectedTaxonomy st) in
    (do secs <- get_itemsBySection (property_key selectedTaxonomy);
     js_ret (SelectedContext selectedTaxonomy secs)) st.

(** [self.renderSelected()], called without argument: the taxonomy rendered
    is [self.selectedTaxonomy]. The templating and the DOM write that
    follow the construction of [context] are external and leave the state
    alone. *)
Definition renderSelected : js unit :=
  do _ <- renderSelected_context None; js_ret tt.

(** First block of [selectItem] ("new parent: create the parent section"):
    a section name that reads as [undefined] gets a record with an empty
    item array. An own record and an inherited value are both truthy. *)
Definition new_parent (taxonomyName parentItemName : string) : js unit :=
  do sec <- get_section taxonomyName parentItemName;
  match sec with
  | Absent => set_section taxonomyName parentItemName
                (SectionRecord parentItemName [])
  | Own _ | Inherited => js_ret tt
  end.

(** Second block of [selectItem] ("new item"): the record is pushed when
    [items.indexOf(itemName)] is truthy; calling [indexOf] on [undefined]
    throws. *)
Definition new_item (taxonomyName parentItemName itemName : string) : js unit :=
  do its <- get_items taxonomyName parentItemName;
  match its with
  | Some a =>
      if truthy (indexOf a itemName)
      then set_items taxonomyName parentItemName (push a (Item itemName))
      else js_ret tt
  | None => js_lift (Throw TypeError)
  end.

(** [self.selectItem]. *)
Definition selectItem (taxonomyName parentItemName itemName : string) : js unit :=
  exec new_parent taxonomyName parentItemName;
  exec new_item taxonomyName parentItemName itemName;
  renderSelected.

(** [self.selectItem], observed at the [context] that its last statement,
    [self.renderSelected()], builds for the template. *)
Definition selectItem_context (taxonomyName parentItemName itemName : string)
    : js selectedContext :=
  exec new_parent taxonomyName parentItemName;
  exec new_item taxonomyName parentItemName itemName;
  renderSelected_context None.

(** [self.indexOfNamedItems(items, name)] where [items] may be
    [undefined]: reading [items.length] of [undefined] throws. *)
Definition indexOfNamedItems_value (its : option (list (option item)))
    (name : string) : completion Z :=
  match its with
  | Some a => indexOfNamedItems a name
  | None => Throw TypeError
  end.

(** [self.unselectItem]: the removal is attempted when the section name
    reads as truthy, an own record or an inherited value. *)
Definition unselectItem (taxonomyName parentItemName itemName : string) : js unit :=
  do sec <- get_section taxonomyName parentItemName;
  exec (match sec with
        | Own _ | Inherited =>
            do its <- get_items taxonomyName parentItemName;
            do itemIndex <- js_lift (indexOfNamedItems_value its itemName);
            set_items taxonomyName parentItemName
              (delete_index (default [] its) itemIndex)
        | Absent => js_ret tt
        end);
  renderSelected.

(** ** Observations on a state *)

(** The section record [selectedItemsData[t].itemsBySection[p]], if any. *)
Definition section_of (st : State) (t p : string) : option sectionRecord :=
  data ← selectedItemsData st !! t; itemsBySection data !! p.

(** The array [selectedItemsData[t].itemsBySection[p].items], if any. *)
Definition items_of (st : State) (t p : string) : option (list (option item)) :=
  items <$> section_of st t p.

(** The elements present in an array, in order (holes carry no element). *)
Definition elements_of (a : list (option item)) : list item := omap id a.


(** The state a call leaves behind, and how the call completed. *)
Definition state_after {A} (m : js A) (st : State) : State := fst (m st).
Definition outcome {A} (m : js A) (st : State) : completion A := snd (m st).

(** Number of elements named [i] present in section [p] of taxonomy [t]. *)
Definition count_selected (st : State) (t p i : string) : nat :=
  match items_of st t p with
  | Some a => length (filter (fun o => item_name o = i) (elements_of a))
  | None => 0
  end.

(** A state has one record per known taxonomy and no other. *)
Definition wf (st : State) : Prop :=
  dom (selectedItemsData st) = list_to_set taxonomies.

(** Rendering reads the record of the selected taxonomy: it succeeds once a
    click handler has stored a known taxonomy in [self.selectedTaxonomy]. *)
Definition can_render (st : State) : Prop :=
  exists t, selectedTaxonomy st = Some t /\ t ∈ taxonomies.

(** The mutation performed by [selectItem] on the taxonomy record [data]. *)
Definition select_in (p i : string) (data : taxonomyData) : taxonomyData :=
  let sec := default (SectionRecord p []) (itemsBySection data !! p) in
  TaxonomyData (taxonomy_name data)
    (<[p := SectionRecord (section_name sec) (push (items sec) (Item i))]>
       (itemsBySection data)).

(** Replace the record of taxonomy [t]. *)
Definition with_data (st : State) (t : string) (data : taxonomyData) : State :=
  MkState (selectedTaxonomy st) (<[t := data]> (selectedItemsData st)).

(** A sequence of user interactions. *)
Inductive op : Type :=
| Select (t p i : string)
| Unselect (t p i : string).

Definition op_taxonomy (o : op) : string :=
  match o with Select t _ _ | Unselect t _ _ => t end.
Definition op_section (o : op) : string :=
  match o with Select _ p _ | Unselect _ p _ => p end.

Definition step (st : State) (o : op) : State :=
  match o with
  | Select t p i => state_after (selectItem t p i) st
  | Unselect t p i => state_after (unselectItem t p i) st
  end.

(** Each interaction runs to completion (normally or not) before the next:
    an uncaught exception in a click handler does not undo its mutations. *)
Definition run (ops : list op) (st : State) : State := foldl step st ops.


(** A call completes normally when it does not throw. *)
Definition completes_normally {A} (m : js A) (st : State) : Prop :=
  exists a, outcome m st = Normal a.

(** Idempotence of a call at a state: doing it twice leaves what doing it
    once leaves. *)
Definition idempotent_at (m : js unit) (st : State) : Prop :=
  state_after m (state_after m st) = state_after m st.

(** The duplicate check as it would behave if [indexOf] found the records by
    name: an item already present at a position other than [0] is
    recognised, and the array is left as it is. *)
Definition duplicate_recognised_after_first (st : State) (t p i : string) : Prop :=
  forall (a : list (option item)) (k : nat),
    items_of st t p = Some a -> k <> 0 -> a !! k = Some (Some (Item i)) ->
    items_of (state_after (selectItem t p i) st) t p = Some a.

(** [selectItem] followed by [unselectItem] on the same triple gives the
    section's array back the elements it had (none, when the section did not
    exist). *)
Definition round_trip_restores (st : State) (t p i : string) : Prop :=
  elements_of
    (default [] (items_of (run [Select t p i; Unselect t p i] st) t p)) =
  elements_of (default [] (items_of st t p)).



(** The state reached by the scenario select Go, select Rust, unselect Go. *)
Definition after_scenario : State :=
  run [Select "skills" "Languages" "Go";
       Select "skills" "Languages" "Rust";
       Unselect "skills" "Languages" "Go"] (init_state (Some "skills")).

(** ** Choosing the taxonomy shown *)

(** The click handler that [self.init] installs on the container of each
    taxonomy of [self.taxonomies]: it stores the clicked taxonomy in
    [self.selectedTaxonomy]. The rest of the handler moves rendered markup
    between elements of the page and does not touch the selection data. *)
Definition click_taxonomy (selectedTaxonomy : string) : js unit :=
  fun st => (MkState (Some selectedTaxonomy) (selectedItemsData st), Normal tt).

(** What the user does: a click on a taxonomy container, or a click that
    calls [selectItem] or [unselectItem]. *)
Inductive event : Type :=
| Click (t : string)
| Call (o : op).

Definition handle (st : State) (e : event) : State :=
  match e with
  | Click t => state_after (click_taxonomy t) st
  | Call o => step st o
  end.

Definition handle_all (es : list event) (st : State) : State :=
  foldl handle st es.

(** Handlers are installed for the taxonomies of [self.taxonomies] only. *)
Definition click_installed (e : event) : Prop :=
  match e with
  | Click t => t ∈ taxonomies
  | Call _ => True
  end.

(** ** Grouping a taxonomy by section (renderSelection) *)

(** An entry of the flat taxonomy array: [name], [parent] and [title], the
    last two possibly missing. *)
Record descriptor : Type := Descriptor {
  name : string;
  parent : option string;
  title : option string
}.

(** [{name, title, parent, items}], the record built for a section. *)
Record selectionSection : Type := SelectionSection {
  selection_name : string;
  selection_title : option string;
  selection_parent : option string;
  selection_items : list descriptor
}.

(** [a == b] on values that are a string or [undefined]. *)
Definition loose_equals (a b : option string) : bool :=
  match a, b with
  | None, None => true
  | Some x, Some y => String.eqb x y
  | _, _ => false
  end.

(** The variables of the loop in [renderSelection]: [taxonomySet],
    [currSection] and the object [itemsBySection] under construction, with
    its own properties ([grouped]) and, once a section named ["__proto__"]
    has been stored, the record that has become its prototype
    ([grouped_prototype]; [None] while the prototype is
    [Object.prototype]). *)
Record grouping : Type := Grouping {
  taxonomySet : option string;
  currSection : option string;
  grouped : gmap string selectionSection;
  grouped_prototype : option selectionSection
}.

(** [itemsBySection[k] = sec]: the key ["__proto__"] is the accessor of
    [Object.prototype], so the assignment replaces the prototype and adds
    no own property; any other key gets an own property. *)
Definition store_section (g : grouping) (k : string) (sec : selectionSection)
    : gmap string selectionSection * option selectionSection :=
  if String.eqb k "__proto__"
  then (grouped g, Some sec)
  else (<[k := sec]> (grouped g), grouped_prototype g).

(** [sec.items.push(item)]. *)
Definition push_item (sec : selectionSection) (item : descriptor)
    : selectionSection :=
  SelectionSection (selection_name sec) (selection_title sec)
    (selection_parent sec) (selection_items sec ++ [item]).

(** The first two statements of the loop body: a descriptor without parent
    becomes the root ("the root item"); a titled descriptor whose parent is
    the root opens a section ("item section") and becomes the current
    one. *)
Definition open_section (g : grouping) (item : descriptor) : grouping :=
  let taxonomySet' :=
    if negb (truthy_string (parent item)) then Some (name item)
    else taxonomySet g in
  if loose_equals (parent item) taxonomySet' && truthy_string (title item)
  then
    let stored :=
      store_section g (name item)
        (SelectionSection (name item) (title item) (parent item) []) in
    Grouping taxonomySet' (Some (name item)) stored.1 stored.2
  else Grouping taxonomySet' (currSection g) (grouped g) (grouped_prototype g).

(** The last statement of the loop body ("item (has parent, parent is
    current section)"): [itemsBySection[item.parent].items.push(item)].
    The read finds an own record, or for ["__proto__"] the prototype; any
    other value has no [items], and [push] on [undefined] throws. *)
Definition push_into_section (g : grouping) (item : descriptor)
    : completion grouping :=
  if truthy_string (parent item) && loose_equals (parent item) (currSection g)
  then
    let k := property_key (parent item) in
    match grouped g !! k with
    | Some sec =>
        Normal (Grouping (taxonomySet g) (currSection g)
                  (<[k := push_item sec item]> (grouped g))
                  (grouped_prototype g))
    | None =>
        if String.eqb k "__proto__"
        then
          match grouped_prototype g with
          | Some sec =>
              Normal (Grouping (taxonomySet g) (currSection g) (grouped g)
                        (Some (push_item sec item)))
          | None => Throw TypeError
          end
        else Throw TypeError
    end
  else Normal g.

(** The body of [taxonomy.forEach(function (item) {...})]. *)
Definition group_item (g : grouping) (item : descriptor) : completion grouping :=
  push_into_section (open_section g item) item.

(** The loop over the taxonomy array, from the loop variables [g]. *)
Fixpoint group_items (g : grouping) (taxonomy : list descriptor)
    : completion grouping :=
  match taxonomy with
  | [] => Normal g
  | item :: rest =>
      match group_item g item with
      | Normal g' => group_items g' rest
      | Throw e => Throw e
      end
  end.

(** The own properties of the [itemsBySection] that
    [self.renderSelection(taxonomy, taxonomyName)] hands to the template. *)
Definition renderSelection_itemsBySection (taxonomy : list descriptor)
    : completion (gmap string selectionSection) :=
  match group_items (Grouping None None ∅ None) taxonomy with
  | Normal g => Normal (grouped g)
  | Throw e => Throw e
  end.

(** A taxonomy array laid out as the data source sends it: the root, then
    each section followed by its items. *)
Definition flat_taxonomy (root : descriptor)
    (blocks : list (descriptor * list descriptor)) : list descriptor :=
  root :: concat ((fun b => b.1 :: b.2) <$> blocks).

(** The layout conditions: the root has no parent and a name; a section has
    the root as parent, a title, and a name of its own that is not
    ["__proto__"]; an item has its section as parent. *)
Definition well_laid_out (root : descriptor)
    (blocks : list (descriptor * list descriptor)) : Prop :=
  truthy_string (parent root) = false /\
  name root <> "" /\
  Forall (fun b =>
            parent b.1 = Some (name root) /\
            truthy_string (title b.1) = true /\
            name b.1 <> "" /\ name b.1 <> name root /\
            name b.1 <> "__proto__" /\
            Forall (fun d => parent d = Some (name b.1)) b.2) blocks.

(** The first [n] slots of [a] hold elements, none of them named [x]: the
    search of [indexOfNamedItems] gets past them. *)
Definition scanned (a : list (option item)) (x : string) (n : nat) : Prop :=
  forall j, j < n -> exists o, a !! j = Some (Some o) /\ item_name o <> x.

(** An array [a'] is a later stage of the array [a]: it is at least as long,
    and each slot of [a] either holds what it held or has been emptied. *)
Definition later_stage (a a' : list (option item)) : Prop :=
  length a <= length a' /\
  forall k, k < length a -> a' !! k = a !! k \/ a' !! k = Some None.

(** Every record is stored under its own name: a taxonomy record under its
    [name], and each of its section records under its [name]. *)
Definition names_agree (st : State) : Prop :=
  forall t data,
    selectedItemsData st !! t = Some data ->
    taxonomy_name data = t /\
    forall p sec, itemsBySection data !! p = Some sec -> section_name sec = p.

(** The taxonomy of the last click on a taxonomy container, if any. *)
Definition last_click (es : list event) : option string :=
  foldl (fun acc e => match e with Click t => Some t | Call _ => acc end) None es.

(** The record built for the section descriptor [s], holding [its]. *)
Definition section_record_of (s : descriptor) (its : list descriptor)
    : selectionSection :=
  SelectionSection (name s) (title s) (parent s) its.

(** What holds of a record [sec] stored under the key [k] once the
    descriptors [seen] have been handled: it was opened by a titled
    descriptor named [k], and its items are descriptors of [seen], in their
    order, whose parent is [k]. *)
Definition record_ok (seen : list descriptor) (k : string)
    (sec : selectionSection) : Prop :=
  (exists d, d ∈ seen /\ truthy_string (title d) = true /\
             sec = section_record_of d (selection_items sec) /\ name d = k) /\
  Forall (fun d => parent d = Some k) (selection_items sec) /\
  sublist (selection_items sec) seen.

(** What holds of the loop variables of [renderSelection] once the
    descriptors [seen] have been handled. *)
Definition grouping_invariant (g : grouping) (seen : list descriptor) : Prop :=
  (forall s, currSection g = Some s ->
             is_Some (grouped g !! s) \/
             (s = "__proto__" /\ is_Some (grouped_prototype g))) /\
  (forall k sec, grouped g !! k = Some sec -> record_ok seen k sec).

(** What holds of the loop variables between the opening of a section and
    the push, while [item] is handled after [seen]. *)
Definition opened_invariant (g : grouping) (seen : list descriptor)
    (item : descriptor) : Prop :=
  (forall s, currSection g = Some s ->
             is_Some (grouped g !! s) \/
             (s = "__proto__" /\ is_Some (grouped_prototype g))) /\
  (forall k sec, grouped g !! k = Some sec ->
                 record_ok (seen ++ [item]) k sec /\
                 sublist (selection_items sec) seen).

(** * Basic facts *)

(** Closes [get_property o k <> Inherited] on concrete [o] and [k]. *)
Ltac not_inherited := vm_compute; discriminate.

Lemma wf_lookup st t : wf st -> t ∈ taxonomies -> is_Some (selectedItemsData st !! t).
Proof.
  intros Hwf Ht. apply elem_of_dom. rewrite Hwf. by apply elem_of_list_to_set.
Qed.

Lemma wf_lookup_None st t : wf st -> t ∉ taxonomies -> selectedItemsData st !! t = None.
Proof.
  intros Hwf Ht. apply not_elem_of_dom. rewrite Hwf. by rewrite elem_of_list_to_set.
Qed.

Lemma init_wf sel : wf (init_state sel).
Proof. unfold wf. simpl. compute_done. Qed.

Lemma indexOf_from_absent k a x : indexOf_from k a x = (-1)%Z.
Proof.
  revert k. induction a as [|[o|] a IH]; intros k; simpl; auto.
Qed.

Lemma indexOf_absent a x : indexOf a x = (-1)%Z.
Proof. apply indexOf_from_absent. Qed.

Lemma get_property_own {A} (o : gmap string A) k a :
  o !! k = Some a -> get_property o k = Own a.
Proof. intros H. unfold get_property. by rewrite H. Qed.

Lemma get_property_absent {A} (o : gmap string A) k :
  o !! k = None -> k ∉ object_prototype_keys -> get_property o k = Absent.
Proof.
  intros H Hk. unfold get_property. rewrite H.
  by rewrite bool_decide_eq_false_2.
Qed.

Lemma get_property_inherited {A} (o : gmap string A) k :
  o !! k = None -> k ∈ object_prototype_keys -> get_property o k = Inherited.
Proof.
  intros H Hk. unfold get_property. rewrite H.
  by rewrite bool_decide_eq_true_2.
Qed.

Lemma get_property_Inherited_inv {A} (o : gmap string A) k :
  get_property o k = Inherited -> o !! k = None /\ k ∈ object_prototype_keys.
Proof.
  unfold get_property. destruct (o !! k); [done|].
  case_bool_decide; [done|done].
Qed.

Lemma get_property_Inherited_dec {A} (o : gmap string A) k :
  get_property o k = Inherited \/ get_property o k <> Inherited.
Proof. destruct (get_property o k); [by right | by left | by right]. Qed.

Lemma get_property_not_inherited {A} (o : gmap string A) k :
  k ∉ object_prototype_keys -> get_property o k <> Inherited.
Proof. intros Hk H. by apply get_property_Inherited_inv in H as [_ ?]. Qed.

Lemma taxonomies_not_inherited t : t ∈ taxonomies -> t ∉ object_prototype_keys.
Proof.
  intros Ht Hk. revert Ht.
  unfold object_prototype_keys in Hk.
  repeat (apply elem_of_cons in Hk as [->|Hk]; [compute_done|]).
  by apply elem_of_nil in Hk.
Qed.

Lemma get_itemsBySection_own st t data :
  selectedItemsData st !! t = Some data ->
  get_itemsBySection t st = (st, Normal (Some (itemsBySection data))).
Proof.
  intros H. unfold get_itemsBySection. by rewrite (get_property_own _ _ _ H).
Qed.

Lemma get_section_own st t p data :
  selectedItemsData st !! t = Some data ->
  get_section t p st = (st, Normal (get_property (itemsBySection data) p)).
Proof.
  intros H. unfold get_section. by rewrite (get_itemsBySection_own _ _ _ H).
Qed.

Lemma get_section_unknown st t p :
  selectedItemsData st !! t = None ->
  get_section t p st = (st, Throw TypeError).
Proof.
  intros H. unfold get_section, get_itemsBySection, get_property. rewrite H.
  by case_bool_decide.
Qed.

Lemma get_items_own st t p data :
  selectedItemsData st !! t = Some data ->
  get_items t p st =
  match get_property (itemsBySection data) p with
  | Own sec => (st, Normal (Some (items sec)))
  | Inherited => (st, Normal None)
  | Absent => (st, Throw TypeError)
  end.
Proof.
  intros H. unfold get_items. rewrite (get_section_own _ _ _ _ H).
  by destruct (get_property _ _).
Qed.

Lemma renderSelected_state st : state_after renderSelected st = st.
Proof.
  unfold state_after, renderSelected, renderSelected_context, js_bind,
    get_itemsBySection, js_ret.
  by destruct (get_property _ _).
Qed.

Lemma renderSelected_ok st : wf st -> can_render st -> renderSelected st = (st, Normal tt).
Proof.
  intros Hwf (t & Hsel & Ht).
  unfold renderSelected, renderSelected_context, js_bind, js_ret.
  rewrite Hsel. simpl.
  destruct (wf_lookup st t Hwf Ht) as [d Hd].
  by rewrite (get_itemsBySection_own _ _ _ Hd).
Qed.

(** ** What the operations do to the state *)

Lemma new_parent_absent st t p data :
  selectedItemsData st !! t = Some data ->
  get_property (itemsBySection data) p = Absent ->
  new_parent t p st =
  (with_data st t
     (TaxonomyData (taxonomy_name data)
        (<[p := SectionRecord p []]> (itemsBySection data))),
   Normal tt).
Proof.
  intros H Hp. unfold new_parent, js_bind.
  rewrite (get_section_own _ _ _ _ H), Hp. unfold set_section. by rewrite H.
Qed.

Lemma new_parent_present st t p data :
  selectedItemsData st !! t = Some data ->
  get_property (itemsBySection data) p <> Absent ->
  new_parent t p st = (st, Normal tt).
Proof.
  intros H Hp. unfold new_parent, js_bind.
  rewrite (get_section_own _ _ _ _ H).
  by destruct (get_property _ _).
Qed.

Lemma new_item_step st t p i data sec :
  selectedItemsData st !! t = Some data ->
  itemsBySection data !! p = Some sec ->
  new_item t p i st =
  if truthy (indexOf (items sec) i)
  then (with_data st t
          (TaxonomyData (taxonomy_name data)
             (<[p := SectionRecord (section_name sec) (push (items sec) (Item i))]>
                (itemsBySection data))),
        Normal tt)
  else (st, Normal tt).
Proof.
  intros H Hp. unfold new_item, js_bind.
  rewrite (get_items_own _ _ _ _ H), (get_property_own _ _ _ Hp).
  destruct (truthy _); [|done].
  unfold set_items, set_section. by rewrite H, Hp.
Qed.

Lemma new_item_inherited st t p i data :
  selectedItemsData st !! t = Some data ->
  get_property (itemsBySection data) p = Inherited ->
  new_item t p i st = (st, Throw TypeError).
Proof.
  intros H Hp. unfold new_item, js_bind.
  by rewrite (get_items_own _ _ _ _ H), Hp.
Qed.

Lemma selectItem_unknown st t p i :
  selectedItemsData st !! t = None ->
  selectItem t p i st = (st, Throw TypeError).
Proof.
  intros H. unfold selectItem, new_parent, js_bind.
  by rewrite (get_section_unknown _ _ _ H).
Qed.

(** A section name found on [Object.prototype] only: nothing is created,
    and [indexOf] is called on [undefined]. *)
Lemma selectItem_inherited st t p i data :
  selectedItemsData st !! t = Some data ->
  get_property (itemsBySection data) p = Inherited ->
  selectItem t p i st = (st, Throw TypeError).
Proof.
  intros H Hp. unfold selectItem, js_bind at 1.
  rewrite (new_parent_present _ _ _ _ H) by (by rewrite Hp).
  unfold js_bind. by rewrite (new_item_inherited _ _ _ _ _ H Hp).
Qed.

Lemma after_new_parent_new_item st t p i data :
  selectedItemsData st !! t = Some data ->
  get_property (itemsBySection data) p <> Inherited ->
  (exec new_parent t p; new_item t p i) st =
  (with_data st t (select_in p i data), Normal tt).
Proof.
  intros H Hp. unfold js_bind at 1.
  destruct (itemsBySection data !! p) as [sec|] eqn:Hs.
  - rewrite (new_parent_present _ _ _ _ H)
      by (by rewrite (get_property_own _ _ _ Hs)).
    rewrite (new_item_step _ _ _ _ _ _ H Hs), indexOf_absent. simpl.
    unfold select_in. by rewrite Hs.
  - assert (Ha : get_property (itemsBySection data) p = Absent).
    { revert Hp. unfold get_property. rewrite Hs. by case_bool_decide. }
    rewrite (new_parent_absent _ _ _ _ H Ha).
    erewrite new_item_step;
      [| unfold with_data; simpl; apply lookup_insert_eq
       | simpl; apply lookup_insert_eq].
    rewrite indexOf_absent. simpl.
    unfold select_in, with_data. rewrite Hs. simpl.
    by rewrite !insert_insert_eq.
Qed.

Lemma selectItem_known st t p i data :
  selectedItemsData st !! t = Some data ->
  get_property (itemsBySection data) p <> Inherited ->
  selectItem t p i st = renderSelected (with_data st t (select_in p i data)).
Proof.
  intros H Hp.
  pose proof (after_new_parent_new_item st t p i data H Hp) as Hm.
  unfold selectItem. unfold js_bind at 1 in Hm. unfold js_bind at 1.
  destruct (new_parent t p st) as [s1 [[]|e]]; [|done].
  unfold js_bind at 1. by rewrite Hm.
Qed.

Lemma selectItem_state st t p i data :
  selectedItemsData st !! t = Some data ->
  get_property (itemsBySection data) p <> Inherited ->
  state_after (selectItem t p i) st = with_data st t (select_in p i data).
Proof.
  intros H Hp. unfold state_after. rewrite (selectItem_known _ _ _ _ _ H Hp).
  apply renderSelected_state.
Qed.

Lemma unselectItem_unknown st t p i :
  selectedItemsData st !! t = None ->
  unselectItem t p i st = (st, Throw TypeError).
Proof.
  intros H. unfold unselectItem, js_bind.
  by rewrite (get_section_unknown _ _ _ H).
Qed.

Lemma unselectItem_no_section st t p i data :
  selectedItemsData st !! t = Some data ->
  get_property (itemsBySection data) p = Absent ->
  unselectItem t p i st = renderSelected st.
Proof.
  intros H Hp. unfold unselectItem, js_bind at 1.
  rewrite (get_section_own _ _ _ _ H), Hp. reflexivity.
Qed.

(** A section name found on [Object.prototype] only: the removal is
    attempted on [undefined]. *)
Lemma unselectItem_inherited st t p i data :
  selectedItemsData st !! t = Some data ->
  get_property (itemsBySection data) p = Inherited ->
  unselectItem t p i st = (st, Throw TypeError).
Proof.
  intros H Hp. unfold unselectItem, js_bind at 1.
  rewrite (get_section_own _ _ _ _ H), Hp. unfold js_bind.
  by rewrite (get_items_own _ _ _ _ H), Hp.
Qed.

Lemma unselectItem_hole st t p i data sec e :
  selectedItemsData st !! t = Some data ->
  itemsBySection data !! p = Some sec ->
  indexOfNamedItems (items sec) i = Throw e ->
  unselectItem t p i st = (st, Throw e).
Proof.
  intros H Hp Hk. unfold unselectItem, js_bind at 1.
  rewrite (get_section_own _ _ _ _ H), (get_property_own _ _ _ Hp).
  unfold js_bind, js_lift.
  rewrite (get_items_own _ _ _ _ H), (get_property_own _ _ _ Hp).
  simpl. by rewrite Hk.
Qed.

Lemma unselectItem_found st t p i data sec k :
  selectedItemsData st !! t = Some data ->
  itemsBySection data !! p = Some sec ->
  indexOfNamedItems (items sec) i = Normal k ->
  unselectItem t p i st =
  renderSelected
    (with_data st t
       (TaxonomyData (taxonomy_name data)
          (<[p := SectionRecord (section_name sec) (delete_index (items sec) k)]>
             (itemsBySection data)))).
Proof.
  intros H Hp Hk. unfold unselectItem, js_bind at 1.
  rewrite (get_section_own _ _ _ _ H), (get_property_own _ _ _ Hp).
  unfold js_bind, js_lift.
  rewrite (get_items_own _ _ _ _ H), (get_property_own _ _ _ Hp).
  simpl. rewrite Hk.
  unfold set_items, set_section. by rewrite H, Hp.
Qed.

Lemma unselectItem_found_state st t p i data sec k :
  selectedItemsData st !! t = Some data ->
  itemsBySection data !! p = Some sec ->
  indexOfNamedItems (items sec) i = Normal k ->
  state_after (unselectItem t p i) st =
  with_data st t
    (TaxonomyData (taxonomy_name data)
       (<[p := SectionRecord (section_name sec) (delete_index (items sec) k)]>
          (itemsBySection data))).
Proof.
  intros H Hp Hk. unfold state_after.
  rewrite (unselectItem_found _ _ _ _ _ _ _ H Hp Hk).
  apply renderSelected_state.
Qed.

Lemma unselectItem_no_section_state st t p i data :
  selectedItemsData st !! t = Some data ->
  itemsBySection data !! p = None ->
  state_after (unselectItem t p i) st = st.
Proof.
  intros H Hp. unfold state_after.
  destruct (decide (p ∈ object_prototype_keys)) as [Hk|Hk].
  - by rewrite (unselectItem_inherited _ _ _ _ _ H
                  (get_property_inherited _ _ Hp Hk)).
  - rewrite (unselectItem_no_section _ _ _ _ _ H
               (get_property_absent _ _ Hp Hk)).
    apply renderSelected_state.
Qed.

(** Every interaction either leaves the state alone or rewrites exactly one
    section record of the targeted taxonomy. *)
Lemma step_cases st o :
  step st o = st \/
  exists data sec',
    selectedItemsData st !! op_taxonomy o = Some data /\
    step st o =
    with_data st (op_taxonomy o)
      (TaxonomyData (taxonomy_name data)
         (<[op_section o := sec']> (itemsBySection data))).
Proof.
  destruct o as [t p i|t p i]; simpl.
  - destruct (selectedItemsData st !! t) as [data|] eqn:H.
    + destruct (get_property_Inherited_dec (itemsBySection data) p) as [Hp|Hp].
      * left. unfold state_after. by rewrite (selectItem_inherited _ _ _ _ _ H Hp).
      * right. exists data. eexists. split; [done|].
        rewrite (selectItem_state _ _ _ _ _ H Hp). reflexivity.
    + left. unfold state_after. by rewrite selectItem_unknown.
  - destruct (selectedItemsData st !! t) as [data|] eqn:H.
    + destruct (itemsBySection data !! p) as [sec|] eqn:Hp.
      * destruct (indexOfNamedItems (items sec) i) as [k|e] eqn:Hk.
        -- right. exists data. eexists. split; [done|].
           apply (unselectItem_found_state _ _ _ _ _ _ _ H Hp Hk).
        -- left. unfold state_after.
           by rewrite (unselectItem_hole _ _ _ _ _ _ _ H Hp Hk).
      * left. apply (unselectItem_no_section_state _ _ _ _ _ H Hp).
    + left. unfold state_after. by rewrite unselectItem_unknown.
Qed.

Lemma section_of_with_data st t data t' p :
  section_of (with_data st t data) t' p =
  if decide (t = t') then itemsBySection data !! p else section_of st t' p.
Proof.
  unfold section_of, with_data. simpl. rewrite lookup_insert.
  by destruct (decide (t = t')).
Qed.

Lemma step_other_taxonomy st o t' :
  t' <> op_taxonomy o ->
  selectedItemsData (step st o) !! t' = selectedItemsData st !! t'.
Proof.
  intros Hne. destruct (step_cases st o) as [->|(data & sec' & _ & ->)]; [done|].
  unfold with_data. simpl. by rewrite lookup_insert_ne.
Qed.

Lemma step_other_section st o t' p' :
  p' <> op_section o ->
  section_of (step st o) t' p' = section_of st t' p'.
Proof.
  intros Hne. destruct (step_cases st o) as [->|(data & sec' & H & ->)]; [done|].
  rewrite section_of_with_data. destruct (decide _) as [<-|]; [|done].
  simpl. rewrite lookup_insert_ne by done. unfold section_of. by rewrite H.
Qed.

Lemma step_selectedTaxonomy st o :
  selectedTaxonomy (step st o) = selectedTaxonomy st.
Proof.
  by destruct (step_cases st o) as [->|(data & sec' & _ & ->)].
Qed.


Lemma step_wf st o : wf st -> wf (step st o).
Proof.
  intros Hwf. destruct (step_cases st o) as [->|(data & sec' & H & ->)]; [done|].
  unfold wf in *. rewrite <- Hwf. unfold with_data.
  cbn [selectedItemsData]. rewrite dom_insert_L.
  apply subseteq_union_1_L, singleton_subseteq_l. by apply elem_of_dom_2 in H.
Qed.

Lemma run_wf ops st : wf st -> wf (run ops st).
Proof.
  revert st. induction ops as [|o ops IH]; intros st Hwf; [done|].
  simpl. apply IH. by apply step_wf.
Qed.


(** * indexOfNamedItems *)

Lemma indexOfNamedItems_from_spec (its : list item) (name : string) (i : Z) :
  exists k : Z,
    indexOfNamedItems_from i (Some <$> its) name = Normal k /\
    ((k = (-1)%Z /\ Forall (fun o => item_name o <> name) its) \/
     (exists (n : nat) (o : item),
        k = (i + Z.of_nat n)%Z /\ its !! n = Some o /\ item_name o = name /\
        Forall (fun o' => item_name o' <> name) (take n its))).
Proof.
  revert i. induction its as [|o its IH]; intros i; simpl.
  - exists (-1)%Z. split; [done|]. left. split; [done | constructor].
  - destruct (String.eqb_spec (item_name o) name) as [Heq|Hne].
    + exists i. split; [done|]. right. exists 0, o. simpl.
      repeat split; [lia | done | constructor].
    + destruct (IH (i + 1)%Z) as (k & Hk & [[-> Hall]|(n & o' & -> & Hn & Ho' & Hall)]).
      * exists (-1)%Z. split; [done|]. left. split; [done|]. by constructor.
      * exists (i + 1 + Z.of_nat n)%Z. split; [done|]. right.
        exists (S n), o'. simpl. repeat split; [lia | done | done |].
        by constructor.
Qed.


(** * The end-to-end scenario *)

(** C3. From the initial state, [selectItem("skills","Languages","Go")],
    [selectItem("skills","Languages","Rust")], then
    [unselectItem("skills","Languages","Go")] leaves
    [selectedItemsData.skills.itemsBySection.Languages.items] with
    [{name:"Rust"}] as its only element: the array is the slot emptied by
    the removal followed by that record. *)
Theorem scenario_go_rust_unselect_go (sel : option string) :
  let st := run [Select "skills" "Languages" "Go";
                 Select "skills" "Languages" "Rust";
                 Unselect "skills" "Languages" "Go"] (init_state sel) in
  exists a : list (option item),
    items_of st "skills" "Languages" = Some a /\
    a = [None; Some (Item "Rust")] /\
    elements_of a = [Item "Rust"].
Proof.
  simpl. exists [None; Some (Item "Rust")].
  split; [|split; reflexivity]. unfold run. simpl.
  erewrite (selectItem_state (init_state sel));
    [|reflexivity|not_inherited].
  erewrite (selectItem_state (with_data _ _ _));
    [|reflexivity|not_inherited].
  erewrite unselectItem_found_state by reflexivity.
  reflexivity.
Qed.

(** * Frame and persistence *)

(** C10. A call [selectItem(t, p, i)] or [unselectItem(t, p, i)] leaves the
    record of every taxonomy other than [t] unchanged and, within [t],
    leaves every section record whose name differs from [p] unchanged
    (for every state and every [t], known or not, and however the call
    completes). *)
Theorem operations_frame (st : State) (t p i t' p' : string) (m : js unit) :
  m = selectItem t p i \/ m = unselectItem t p i ->
  (t' <> t ->
   selectedItemsData (state_after m st) !! t' = selectedItemsData st !! t') /\
  (p' <> p ->
   section_of (state_after m st) t p' = section_of st t p').
Proof.
  intros [-> | ->].
  - split; intros Hne.
    + apply (step_other_taxonomy st (Select t p i)), Hne.
    + apply (step_other_section st (Select t p i)), Hne.
  - split; intros Hne.
    + apply (step_other_taxonomy st (Unselect t p i)), Hne.
    + apply (step_other_section st (Unselect t p i)), Hne.
Qed.

Lemma operations_frame_witness :
  let st := init_state (Some "skills") in
  let m := selectItem "skills" "Languages" "Go" in
  selectedItemsData (state_after m st) !! "interests" =
    selectedItemsData st !! "interests" /\
  section_of (state_after m st) "skills" "Tools" = section_of st "skills" "Tools".
Proof.
  intros st m.
  destruct (operations_frame st "skills" "Languages" "Go" "interests" "Tools" m
              (or_introl eq_refl)) as [H1 H2].
  split; [apply H1 | apply H2]; discriminate.
Defined.






(** * Sequences of selections *)

Lemma items_of_selectItem st t p0 i0 p data :
  selectedItemsData st !! t = Some data ->
  get_property (itemsBySection data) p0 <> Inherited ->
  items_of (state_after (selectItem t p0 i0) st) t p =
  if decide (p0 = p)
  then Some (push (default [] (items_of st t p)) (Item i0))
  else items_of st t p.
Proof.
  intros H Hk. rewrite (selectItem_state _ _ _ _ _ H Hk). unfold items_of.
  rewrite section_of_with_data, decide_True by done.
  unfold select_in, section_of. rewrite H. simpl. rewrite lookup_insert.
  destruct (decide (p0 = p)) as [->|]; [|done].
  by destruct (itemsBySection data !! p).
Qed.


Lemma elements_of_push a o : elements_of (push a o) = elements_of a ++ [o].
Proof. unfold elements_of, push. by rewrite omap_app. Qed.

Lemma count_selected_selectItem st t p0 i0 p i :
  is_Some (selectedItemsData st !! t) ->
  p0 ∉ object_prototype_keys ->
  count_selected (state_after (selectItem t p0 i0) st) t p i =
  count_selected st t p i + (if decide ((p0, i0) = (p, i)) then 1 else 0).
Proof.
  intros [data H] Hk0. unfold count_selected.
  rewrite (items_of_selectItem _ _ _ _ _ _ H)
    by (by apply get_property_not_inherited).
  destruct (decide (p0 = p)) as [->|Hp].
  - rewrite elements_of_push, filter_app, length_app.
    assert (Hlen : length (filter (fun o => item_name o = i)
                             (elements_of (default [] (items_of st t p)))) =
                   match items_of st t p with
                   | Some a => length (filter (fun o => item_name o = i) (elements_of a))
                   | None => 0
                   end) by (by destruct (items_of st t p)).
    rewrite Hlen. f_equal.
    destruct (decide (i0 = i)) as [->|Hi].
    + rewrite decide_True by done. by rewrite filter_cons_True.
    + rewrite decide_False by congruence. by rewrite filter_cons_False.
  - rewrite decide_False by congruence. lia.
Qed.








(** * The duplicate check of selectItem *)

Lemma selectItem_appends st t p i :
  wf st -> t ∈ taxonomies -> p ∉ object_prototype_keys ->
  items_of (state_after (selectItem t p i) st) t p =
  Some (push (default [] (items_of st t p)) (Item i)).
Proof.
  intros Hwf Ht Hk. destruct (wf_lookup st t Hwf Ht) as [data H].
  rewrite (items_of_selectItem _ _ _ _ _ _ H)
    by (by apply get_property_not_inherited).
  by rewrite decide_True.
Qed.

(** C7, at a failing input. With [{name:"Go"}, {name:"Rust"}] in section
    "Languages", selecting "Rust", which is present at position 1, appends
    a second record named "Rust": the duplicate check does not recognise an
    item at a position other than 0. Selecting "Go", present at position 0,
    appends it again as well, as the claim says. *)
Theorem duplicate_check_misses_later_positions :
  let st := run [Select "skills" "Languages" "Go";
                 Select "skills" "Languages" "Rust"]
              (init_state (Some "skills")) in
  items_of st "skills" "Languages" =
    Some [Some (Item "Go"); Some (Item "Rust")] /\
  items_of (state_after (selectItem "skills" "Languages" "Rust") st)
    "skills" "Languages" =
    Some [Some (Item "Go"); Some (Item "Rust"); Some (Item "Rust")] /\
  items_of (state_after (selectItem "skills" "Languages" "Go") st)
    "skills" "Languages" =
    Some [Some (Item "Go"); Some (Item "Rust"); Some (Item "Go")] /\
  ~ duplicate_recognised_after_first st "skills" "Languages" "Rust".
Proof.
  intros st. split; [reflexivity|]. split; [reflexivity|].
  split; [reflexivity|]. intros Hrec.
  specialize (Hrec [Some (Item "Go"); Some (Item "Rust")] 1 eq_refl).
  assert (H : Some [Some (Item "Go"); Some (Item "Rust"); Some (Item "Rust")] =
              Some [Some (Item "Go"); Some (Item "Rust")]);
    [|discriminate H].
  rewrite <- Hrec; [reflexivity | discriminate | reflexivity].
Qed.

(** C1, at a failing input. From the initial state, selecting
    ("skills", "Languages", "Go") twice leaves two records named "Go" in
    the section, where selecting it once leaves one: the second call is not
    a no-op. *)
Theorem selectItem_twice_appends_twice :
  let st := init_state (Some "skills") in
  let m := selectItem "skills" "Languages" "Go" in
  items_of (state_after m st) "skills" "Languages" = Some [Some (Item "Go")] /\
  items_of (state_after m (state_after m st)) "skills" "Languages" =
    Some [Some (Item "Go"); Some (Item "Go")] /\
  ~ idempotent_at m st.
Proof.
  intros st m. split; [reflexivity|]. split; [reflexivity|].
  unfold idempotent_at. intros Heq.
  apply (f_equal (fun s => items_of s "skills" "Languages")) in Heq.
  vm_compute in Heq. discriminate Heq.
Qed.

(** Selecting is nowhere idempotent: each call adds one more record
    (under a section name that is not inherited from [Object.prototype];
    under such a name each call throws and adds nothing). *)
Lemma selectItem_never_idempotent st t p i :
  wf st -> t ∈ taxonomies -> p ∉ object_prototype_keys ->
  ~ idempotent_at (selectItem t p i) st.
Proof.
  intros Hwf Ht Hk Heq.
  apply (f_equal (fun s => length <$> items_of s t p)) in Heq.
  rewrite (selectItem_appends (state_after _ st)) in Heq;
    [| apply (step_wf st (Select t p i) Hwf) | exact Ht | exact Hk].
  rewrite (selectItem_appends st _ _ _ Hwf Ht Hk) in Heq.
  simpl in Heq. injection Heq as Heq. unfold push in Heq.
  rewrite !length_app in Heq. simpl in Heq. lia.
Qed.

(** * Completion of the operations *)

Lemma undefined_not_a_taxonomy : "undefined" ∉ taxonomies.
Proof. compute_done. Qed.

Lemma undefined_not_inherited : "undefined" ∉ object_prototype_keys.
Proof. compute_done. Qed.

Lemma renderSelected_unselected st :
  wf st -> selectedTaxonomy st = None -> renderSelected st = (st, Throw TypeError).
Proof.
  intros Hwf Hsel.
  unfold renderSelected, renderSelected_context, js_bind, get_itemsBySection.
  rewrite Hsel. simpl.
  by rewrite (get_property_absent _ _
                (wf_lookup_None st "undefined" Hwf undefined_not_a_taxonomy)
                undefined_not_inherited).
Qed.

Lemma can_render_step st o : can_render st -> can_render (step st o).
Proof. unfold can_render. by rewrite step_selectedTaxonomy. Qed.

(** C6, as the code has it. [selectItem] returns no value and validates
    nothing. With a taxonomy name outside the known set it does not fail
    silently: it throws a [TypeError] on the missing [itemsBySection],
    before anything is changed. With a known taxonomy name, a section name
    that is not inherited from [Object.prototype] and a known taxonomy
    selected for rendering, it completes normally (returning
    [undefined]). *)
Theorem selectItem_completion (st : State) (t p i : string) :
  wf st ->
  (t ∉ taxonomies -> selectItem t p i st = (st, Throw TypeError)) /\
  (t ∈ taxonomies -> p ∉ object_prototype_keys -> can_render st ->
   outcome (selectItem t p i) st = Normal tt).
Proof.
  intros Hwf. split.
  - intros Ht. apply selectItem_unknown. by apply wf_lookup_None.
  - intros Ht Hk Hr. destruct (wf_lookup st t Hwf Ht) as [data H].
    pose proof (get_property_not_inherited (itemsBySection data) p Hk) as Hni.
    unfold outcome. rewrite (selectItem_known _ _ _ _ _ H Hni).
    pose proof (step_wf st (Select t p i) Hwf) as Hwf'.
    pose proof (can_render_step st (Select t p i) Hr) as Hr'.
    simpl in Hwf', Hr'. rewrite (selectItem_state _ _ _ _ _ H Hni) in Hwf', Hr'.
    by rewrite (renderSelected_ok _ Hwf' Hr').
Qed.

Lemma selectItem_completion_witness :
  let st := init_state (Some "skills") in
  selectItem "hobbies" "Languages" "Go" st = (st, Throw TypeError).
Proof.
  intros st.
  assert (Hwf : wf st) by (unfold wf; compute_done).
  assert (Ht : "hobbies" ∉ taxonomies) by compute_done.
  apply (selectItem_completion st "hobbies" "Languages" "Go" Hwf), Ht.
Defined.

(** With a taxonomy name that is not a known taxonomy, [selectItem]
    throws. *)
Lemma selectItem_unknown_taxonomy_throws :
  ~ completes_normally (selectItem "hobbies" "Languages" "Go")
      (init_state (Some "skills")).
Proof. intros [a Ha]. vm_compute in Ha. discriminate Ha. Qed.

(** * Removal and the holes it leaves *)

Lemma after_scenario_items :
  items_of after_scenario "skills" "Languages" = Some [None; Some (Item "Rust")].
Proof. reflexivity. Qed.

(** C4, at a failing input. In the state reached by the scenario of C3 the
    section "Languages" exists and holds no item named "Python", yet
    [unselectItem("skills", "Languages", "Python")] throws a [TypeError]:
    [indexOfNamedItems] reads [.name] on the slot emptied by the earlier
    removal. The state is left unchanged. *)
Theorem unselectItem_missing_item_throws_after_removal :
  wf after_scenario /\ can_render after_scenario /\
  items_of after_scenario "skills" "Languages" = Some [None; Some (Item "Rust")] /\
  unselectItem "skills" "Languages" "Python" after_scenario =
    (after_scenario, Throw TypeError) /\
  ~ completes_normally (unselectItem "skills" "Languages" "Python") after_scenario.
Proof.
  split; [unfold wf; compute_done|].
  split; [exists "skills"; split; [reflexivity | compute_done]|].
  split; [reflexivity|].
  assert (H : unselectItem "skills" "Languages" "Python" after_scenario =
              (after_scenario, Throw TypeError)).
  { eapply unselectItem_hole; reflexivity. }
  split; [exact H|].
  intros [a Ha]. unfold outcome in Ha. rewrite H in Ha. discriminate Ha.
Qed.

(** C2, at a failing input. In the state reached by the scenario of C3,
    [selectItem("skills", "Languages", "Python")] followed by
    [unselectItem("skills", "Languages", "Python")] does not give the
    section its former contents back: the removal throws on the emptied
    slot and the record named "Python" stays. Where the item is already
    selected (the array holding "Go" then "Rust"), the round trip on "Go"
    removes the earlier record and keeps the new one, so the order of the
    elements changes. *)
Theorem select_unselect_round_trip_fails :
  (let st := state_after (selectItem "skills" "Languages" "Python") after_scenario in
   items_of after_scenario "skills" "Languages" = Some [None; Some (Item "Rust")] /\
   outcome (unselectItem "skills" "Languages" "Python") st = Throw TypeError /\
   items_of (state_after (unselectItem "skills" "Languages" "Python") st)
     "skills" "Languages" =
     Some [None; Some (Item "Rust"); Some (Item "Python")] /\
   ~ round_trip_restores after_scenario "skills" "Languages" "Python") /\
  (let st := run [Select "skills" "Languages" "Go";
                  Select "skills" "Languages" "Rust"] (init_state (Some "skills")) in
   items_of st "skills" "Languages" = Some [Some (Item "Go"); Some (Item "Rust")] /\
   items_of (run [Select "skills" "Languages" "Go";
                  Unselect "skills" "Languages" "Go"] st) "skills" "Languages" =
     Some [None; Some (Item "Rust"); Some (Item "Go")] /\
   ~ round_trip_restores st "skills" "Languages" "Go").
Proof.
  split.
  - intros st. split; [reflexivity|]. split; [reflexivity|].
    split; [reflexivity|]. unfold round_trip_restores. intros H.
    vm_compute in H. discriminate H.
  - intros st. split; [reflexivity|]. split; [reflexivity|].
    unfold round_trip_restores. intros H. vm_compute in H. discriminate H.
Qed.

(** What does hold for a removal that finds nothing to remove. *)

Lemma indexOfNamedItems_from_missing a name i0 :
  (forall o, Some o ∈ a -> item_name o <> name) ->
  indexOfNamedItems_from i0 a name = Normal (-1)%Z \/
  exists e, indexOfNamedItems_from i0 a name = Throw e.
Proof.
  revert i0. induction a as [|[o|] a IH]; intros i0 Hno; simpl.
  - by left.
  - destruct (String.eqb_spec (item_name o) name) as [Heq|Hne].
    + destruct (Hno o); [apply elem_of_cons; by left | done].
    + apply IH. intros o' Ho'. apply Hno, elem_of_cons. by right.
  - right. by eexists.
Qed.

Lemma with_data_same st t data sec p :
  selectedItemsData st !! t = Some data ->
  itemsBySection data !! p = Some sec ->
  with_data st t
    (TaxonomyData (taxonomy_name data)
       (<[p := SectionRecord (section_name sec) (items sec)]> (itemsBySection data)))
  = st.
Proof.
  intros H Hp. destruct st as [sel m], data as [n secs], sec as [sn a].
  unfold with_data. simpl in *. by rewrite (insert_id secs), (insert_id m).
Qed.

(** Whatever the state, a removal that targets a missing section, or a
    section with no element of that name, leaves the state as it is. *)
Lemma unselectItem_missing_state_unchanged st t p i :
  (forall sec o, section_of st t p = Some sec -> Some o ∈ items sec ->
                 item_name o <> i) ->
  state_after (unselectItem t p i) st = st.
Proof.
  intros Hno. destruct (selectedItemsData st !! t) as [data|] eqn:H.
  - destruct (itemsBySection data !! p) as [sec|] eqn:Hp.
    + assert (Hs : section_of st t p = Some sec)
        by (unfold section_of; by rewrite H).
      destruct (indexOfNamedItems_from_missing (items sec) i 0
                  (fun o => Hno sec o Hs)) as [Hk|[e Hk]].
      * rewrite (unselectItem_found_state _ _ _ _ _ _ _ H Hp Hk).
        apply (with_data_same _ _ _ _ _ H Hp).
      * unfold state_after. by rewrite (unselectItem_hole _ _ _ _ _ _ _ H Hp Hk).
    + apply (unselectItem_no_section_state _ _ _ _ _ H Hp).
  - unfold state_after. by rewrite unselectItem_unknown.
Qed.

(** It completes normally when, in addition, the section's array has no
    hole (no element of it was removed before) and the section name is not
    inherited from [Object.prototype]. *)
Lemma unselectItem_missing_noop st t p i :
  wf st -> t ∈ taxonomies -> can_render st -> p ∉ object_prototype_keys ->
  (forall sec, section_of st t p = Some sec ->
     exists its, items sec = Some <$> its /\
                 Forall (fun o => item_name o <> i) its) ->
  unselectItem t p i st = (st, Normal tt).
Proof.
  intros Hwf Ht Hr Hpk Hsec. destruct (wf_lookup st t Hwf Ht) as [data H].
  destruct (itemsBySection data !! p) as [sec|] eqn:Hp.
  - destruct (Hsec sec) as (its & Hits & Hall);
      [unfold section_of; by rewrite H|].
    assert (Hk : indexOfNamedItems (items sec) i = Normal (-1)%Z).
    { rewrite Hits.
      destruct (indexOfNamedItems_from_spec its i 0)
        as (k & Hk & [[-> _]|(n & o & _ & Hn & Ho & _)]); [done|].
      rewrite Forall_forall in Hall.
      destruct (Hall o); [by eapply list_elem_of_lookup_2 | done]. }
    rewrite (unselectItem_found _ _ _ _ _ _ _ H Hp Hk).
    change (delete_index (items sec) (-1)) with (items sec).
    rewrite (with_data_same _ _ _ _ _ H Hp).
    by apply renderSelected_ok.
  - rewrite (unselectItem_no_section _ _ _ _ _ H
               (get_property_absent _ _ Hp Hpk)).
    by apply renderSelected_ok.
Qed.

(** * indexOfNamedItems on arrays with emptied slots *)

Lemma scanned_cons o a x n :
  item_name o <> x -> scanned a x n -> scanned (Some o :: a) x (S n).
Proof.
  intros Hne Hs [|j] Hj; simpl.
  - by exists o.
  - apply Hs. lia.
Qed.

Lemma indexOfNamedItems_from_cases a x i :
  (exists h, a !! h = Some None /\ scanned a x h /\
             indexOfNamedItems_from i a x = Throw TypeError) \/
  (exists n o, a !! n = Some (Some o) /\ item_name o = x /\ scanned a x n /\
               indexOfNamedItems_from i a x = Normal (i + Z.of_nat n)%Z) \/
  (scanned a x (length a) /\ indexOfNamedItems_from i a x = Normal (-1)%Z).
Proof.
  revert i. induction a as [|[o|] a IH]; intros i; simpl.
  - right. right. split; [|done]. intros j Hj. simpl in Hj. lia.
  - destruct (String.eqb_spec (item_name o) x) as [Heq|Hne].
    + right. left. exists 0, o. repeat split; [done| |f_equal; lia].
      intros j Hj. lia.
    + destruct (IH (i + 1)%Z) as [(h & Hh & Hs & ->)|[(n & o' & Hn & Ho' & Hs & ->)|[Hs ->]]].
      * left. exists (S h). repeat split; [done|]. by apply scanned_cons.
      * right. left. exists (S n), o'.
        repeat split; [done|done|by apply scanned_cons|f_equal; lia].
      * right. right. split; [|done]. by apply (scanned_cons o a x (length a)).
  - left. exists 0. repeat split. intros j Hj. lia.
Qed.

Lemma scanned_not_hole a x n h :
  scanned a x n -> a !! h = Some None -> n <= h.
Proof.
  intros Hs Hh. destruct (decide (h < n)) as [Hlt|]; [|lia].
  destruct (Hs h Hlt) as (o & Ho & _). congruence.
Qed.

Lemma scanned_not_match a x n m o :
  scanned a x n -> a !! m = Some (Some o) -> item_name o = x -> n <= m.
Proof.
  intros Hs Hm Ho. destruct (decide (m < n)) as [Hlt|]; [|lia].
  destruct (Hs m Hlt) as (o' & Ho' & Hne). congruence.
Qed.

(** X1. [indexOfNamedItems] throws exactly when the array has an emptied
    slot that the search reaches: a hole with only elements of other names
    before it. *)
Theorem indexOfNamedItems_throws_iff (a : list (option item)) (x : string) :
  indexOfNamedItems a x = Throw TypeError <->
  exists h, a !! h = Some None /\ scanned a x h.
Proof.
  unfold indexOfNamedItems.
  destruct (indexOfNamedItems_from_cases a x 0)
    as [(h & Hh & Hs & Hr)|[(n & o & Hn & Ho & Hs & Hr)|[Hs Hr]]]; rewrite Hr.
  - split; [intros _; by exists h|done].
  - split; [done|]. intros (h & Hh & Hs').
    pose proof (scanned_not_hole _ _ _ _ Hs Hh).
    pose proof (scanned_not_match _ _ _ _ _ Hs' Hn Ho).
    assert (h = n) by lia. congruence.
  - split; [done|]. intros (h & Hh & _).
    pose proof (scanned_not_hole _ _ _ _ Hs Hh).
    apply lookup_lt_Some in Hh. lia.
Qed.

(** X2. On any array, holes included, a position returned by
    [indexOfNamedItems] is in bounds and holds an element of the wanted
    name, reached over elements of other names only; [-1] is returned only
    when every slot holds an element of another name. *)
Theorem indexOfNamedItems_result
    (a : list (option item)) (x : string) (k : Z) :
  indexOfNamedItems a x = Normal k ->
  (k = (-1)%Z /\ scanned a x (length a)) \/
  ((0 <= k < Z.of_nat (length a))%Z /\
   (exists o, a !! Z.to_nat k = Some (Some o) /\ item_name o = x) /\
   scanned a x (Z.to_nat k)).
Proof.
  unfold indexOfNamedItems.
  destruct (indexOfNamedItems_from_cases a x 0)
    as [(h & Hh & Hs & Hr)|[(n & o & Hn & Ho & Hs & Hr)|[Hs Hr]]]; rewrite Hr.
  - done.
  - intros [= <-]. right. rewrite Z.add_0_l, Nat2Z.id.
    pose proof (lookup_lt_Some _ _ _ Hn). repeat split; [lia|lia|by exists o|done].
  - intros [= <-]. by left.
Qed.

Lemma indexOfNamedItems_result_witness :
  let a := [Some (Item "c"); None; Some (Item "a")] in
  indexOfNamedItems a "c" = Normal 0%Z /\
  exists o, a !! Z.to_nat 0 = Some (Some o) /\ item_name o = "c".
Proof.
  intros a.
  assert (H : indexOfNamedItems a "c" = Normal 0%Z) by reflexivity.
  split; [exact H|].
  destruct (indexOfNamedItems_result a "c" 0%Z H) as [[Hk _]|(_ & Ho & _)].
  - discriminate Hk.
  - exact Ho.
Defined.

(** * Removal *)

Lemma items_of_Some st t p a :
  items_of st t p = Some a ->
  exists data sec,
    selectedItemsData st !! t = Some data /\
    itemsBySection data !! p = Some sec /\ items sec = a.
Proof.
  unfold items_of, section_of. intros H.
  destruct (selectedItemsData st !! t) as [data|]; simpl in H; [|discriminate H].
  destruct (itemsBySection data !! p) as [sec|] eqn:Hp; simpl in H;
    [|discriminate H].
  injection H as <-. by exists data, sec.
Qed.

Lemma section_of_Some st t p sec :
  section_of st t p = Some sec ->
  exists data,
    selectedItemsData st !! t = Some data /\ itemsBySection data !! p = Some sec.
Proof.
  unfold section_of. intros H.
  destruct (selectedItemsData st !! t) as [data|]; simpl in H; [|discriminate H].
  by exists data.
Qed.

Lemma items_of_unselectItem_found st t p i data sec k :
  selectedItemsData st !! t = Some data ->
  itemsBySection data !! p = Some sec ->
  indexOfNamedItems (items sec) i = Normal k ->
  items_of (state_after (unselectItem t p i) st) t p =
  Some (delete_index (items sec) k).
Proof.
  intros H Hp Hk. rewrite (unselectItem_found_state _ _ _ _ _ _ _ H Hp Hk).
  unfold items_of. rewrite section_of_with_data, decide_True by done. simpl.
  by rewrite lookup_insert_eq.
Qed.

Lemma elements_of_app a b : elements_of (a ++ b) = elements_of a ++ elements_of b.
Proof. apply omap_app. Qed.

Lemma elements_of_empty_slot a n o :
  a !! n = Some (Some o) ->
  exists l r,
    elements_of a = l ++ o :: r /\ elements_of (<[n := None]> a) = l ++ r.
Proof.
  intros Hn. exists (elements_of (take n a)), (elements_of (drop (S n) a)).
  pose proof (lookup_lt_Some _ _ _ Hn) as Hlt.
  rewrite insert_take_drop by done.
  rewrite <- (take_drop_middle a n (Some o) Hn) at 1.
  by rewrite !elements_of_app.
Qed.

(** X3. When [indexOfNamedItems] finds the item at position [k], the
    removal empties that slot and nothing else: the array keeps its length,
    the section has one element named [i] less, and as many elements of
    every other name as before. *)
Theorem unselectItem_removes_first_match
    (st : State) (t p i : string) (sec : sectionRecord) (k : Z) :
  section_of st t p = Some sec ->
  indexOfNamedItems (items sec) i = Normal k ->
  (0 <= k)%Z ->
  let st' := state_after (unselectItem t p i) st in
  items_of st' t p = Some (<[Z.to_nat k := None]> (items sec)) /\
  count_selected st' t p i + 1 = count_selected st t p i /\
  (forall i', i' <> i -> count_selected st' t p i' = count_selected st t p i').
Proof.
  intros Hs Hk Hpos st'.
  destruct (section_of_Some _ _ _ _ Hs) as (data & H & Hp).
  assert (Hit : items_of st' t p = Some (<[Z.to_nat k := None]> (items sec))).
  { unfold st'. rewrite (items_of_unselectItem_found _ _ _ _ _ _ _ H Hp Hk).
    unfold delete_index. by rewrite (proj2 (Z.ltb_ge k 0) Hpos). }
  split; [exact Hit|].
  assert (Hat : exists o, items sec !! Z.to_nat k = Some (Some o) /\ item_name o = i).
  { unfold indexOfNamedItems in Hk.
    destruct (indexOfNamedItems_from_cases (items sec) i 0)
      as [(h & _ & _ & Hr)|[(n & o & Hn & Ho & _ & Hr)|[_ Hr]]];
      rewrite Hr in Hk; [done| |injection Hk as <-; lia].
    injection Hk as <-. rewrite Z.add_0_l, Nat2Z.id. by exists o. }
  destruct Hat as (o & Ho & Hname).
  destruct (elements_of_empty_slot _ _ _ Ho) as (l & r & Hl & Hr).
  assert (Hit0 : items_of st t p = Some (items sec))
    by (unfold items_of; by rewrite Hs).
  unfold count_selected. rewrite Hit, Hit0, Hl, Hr. split.
  - rewrite !filter_app, !length_app, filter_cons_True by done. simpl. lia.
  - intros i' Hne.
    by rewrite !filter_app, !length_app, filter_cons_False by congruence.
Qed.

Lemma unselectItem_removes_first_match_witness :
  let st := run [Select "skills" "Languages" "Go";
                 Select "skills" "Languages" "Rust"] (init_state (Some "skills")) in
  let st' := state_after (unselectItem "skills" "Languages" "Rust") st in
  items_of st' "skills" "Languages" = Some [Some (Item "Go"); None] /\
  count_selected st' "skills" "Languages" "Rust" + 1 =
    count_selected st "skills" "Languages" "Rust".
Proof.
  intros st st'.
  assert (Hs : section_of st "skills" "Languages" =
               Some (SectionRecord "Languages" [Some (Item "Go"); Some (Item "Rust")]))
    by reflexivity.
  assert (Hk : indexOfNamedItems [Some (Item "Go"); Some (Item "Rust")] "Rust" =
               Normal 1%Z) by reflexivity.
  assert (Hpos : (0 <= 1)%Z) by lia.
  destruct (unselectItem_removes_first_match st "skills" "Languages" "Rust"
              _ 1%Z Hs Hk Hpos) as (H1 & H2 & _).
  split; [exact H1 | exact H2].
Defined.

Lemma can_render_with_data st t data :
  can_render (with_data st t data) <-> can_render st.
Proof. done. Qed.

(** X4. How [unselectItem] completes, in a well-formed state: with a
    taxonomy name outside the known set it throws before changing
    anything; with a known taxonomy name and a known taxonomy selected for
    rendering, it completes normally exactly when either the section has a
    record and the search of its array does not throw, or the section has
    no record and its name is not inherited from [Object.prototype] (for an
    inherited name the removal is attempted on [undefined] and throws). *)
Theorem unselectItem_completion (st : State) (t p i : string) :
  wf st ->
  (t ∉ taxonomies -> unselectItem t p i st = (st, Throw TypeError)) /\
  (t ∈ taxonomies -> can_render st ->
   (outcome (unselectItem t p i) st = Normal tt <->
    match section_of st t p with
    | Some sec => indexOfNamedItems (items sec) i <> Throw TypeError
    | None => p ∉ object_prototype_keys
    end)).
Proof.
  intros Hwf. split.
  - intros Ht. apply unselectItem_unknown. by apply wf_lookup_None.
  - intros Ht Hr. destruct (wf_lookup st t Hwf Ht) as [data H].
    unfold outcome, section_of. rewrite H. simpl.
    destruct (itemsBySection data !! p) as [sec|] eqn:Hp.
    + destruct (indexOfNamedItems (items sec) i) as [k|[]] eqn:Hk.
      * rewrite (unselectItem_found _ _ _ _ _ _ _ H Hp Hk).
        pose proof (step_wf st (Unselect t p i) Hwf) as Hwf'.
        pose proof (can_render_step st (Unselect t p i) Hr) as Hr'.
        simpl in Hwf', Hr'.
        rewrite (unselectItem_found_state _ _ _ _ _ _ _ H Hp Hk) in Hwf', Hr'.
        by rewrite (renderSelected_ok _ Hwf' Hr').
      * rewrite (unselectItem_hole _ _ _ _ _ _ _ H Hp Hk). simpl.
        split; [done|]. by intros Hno.
    + destruct (decide (p ∈ object_prototype_keys)) as [Hk|Hk].
      * rewrite (unselectItem_inherited _ _ _ _ _ H
                   (get_property_inherited _ _ Hp Hk)).
        simpl. split; [done|]. by intros Hno.
      * rewrite (unselectItem_no_section _ _ _ _ _ H
                   (get_property_absent _ _ Hp Hk)).
        by rewrite (renderSelected_ok _ Hwf Hr).
Qed.

Lemma unselectItem_completion_witness :
  let st := init_state (Some "skills") in
  unselectItem "hobbies" "Languages" "Go" st = (st, Throw TypeError).
Proof.
  intros st.
  assert (Hwf : wf st) by (unfold wf; compute_done).
  assert (Ht : "hobbies" ∉ taxonomies) by compute_done.
  apply (unselectItem_completion st "hobbies" "Languages" "Go" Hwf), Ht.
Defined.

(** ** Arrays only grow, and an emptied slot stays empty *)

Lemma later_stage_refl a : later_stage a a.
Proof. split; [done|]. intros; by left. Qed.

Lemma later_stage_trans a b c :
  later_stage a b -> later_stage b c -> later_stage a c.
Proof.
  intros [Hl1 H1] [Hl2 H2]. split; [lia|]. intros k Hk.
  destruct (H2 k ltac:(lia)) as [Hc|Hc]; [|by right].
  rewrite Hc. apply H1, Hk.
Qed.

Lemma later_stage_push a o : later_stage a (push a o).
Proof.
  unfold push. split; [rewrite length_app; lia|].
  intros k Hk. left. by apply lookup_app_l.
Qed.

Lemma later_stage_delete_index a k : later_stage a (delete_index a k).
Proof.
  unfold delete_index. destruct (k <? 0)%Z; [apply later_stage_refl|].
  split; [by rewrite length_insert|]. intros j Hj.
  destruct (decide (Z.to_nat k = j)) as [<-|Hne].
  - right. by apply list_lookup_insert_eq.
  - left. by apply list_lookup_insert_ne.
Qed.

Lemma step_later_stage st o t p a :
  items_of st t p = Some a ->
  exists a', items_of (step st o) t p = Some a' /\ later_stage a a'.
Proof.
  intros Ha.
  destruct (decide (t = op_taxonomy o)) as [->|Ht].
  2:{ exists a. split; [|apply later_stage_refl].
      unfold items_of, section_of in *.
      by rewrite (step_other_taxonomy st o t Ht). }
  destruct (decide (p = op_section o)) as [->|Hp].
  2:{ exists a. split; [|apply later_stage_refl].
      unfold items_of in *. by rewrite (step_other_section st o _ p Hp). }
  destruct (items_of_Some _ _ _ _ Ha) as (data & sec & H & Hp & <-).
  destruct o as [t p i|t p i]; simpl in *.
  - exists (push (items sec) (Item i)). split; [|apply later_stage_push].
    rewrite (items_of_selectItem _ _ _ _ _ _ H)
      by (by rewrite (get_property_own _ _ _ Hp)).
    rewrite decide_True by done. by rewrite Ha.
  - destruct (indexOfNamedItems (items sec) i) as [k|e] eqn:Hk.
    + exists (delete_index (items sec) k).
      split; [|apply later_stage_delete_index].
      apply (items_of_unselectItem_found _ _ _ _ _ _ _ H Hp Hk).
    + exists (items sec). split; [|apply later_stage_refl].
      unfold state_after. by rewrite (unselectItem_hole _ _ _ _ _ _ _ H Hp Hk).
Qed.

Lemma run_later_stage ops st t p a :
  items_of st t p = Some a ->
  exists a', items_of (run ops st) t p = Some a' /\ later_stage a a'.
Proof.
  revert st a. induction ops as [|o ops IH]; intros st a Ha.
  - exists a. split; [done | apply later_stage_refl].
  - destruct (step_later_stage st o t p a Ha) as (a1 & Ha1 & Hs1).
    destruct (IH _ _ Ha1) as (a' & Ha' & Hs').
    exists a'. split; [exact Ha'|]. by apply (later_stage_trans a a1 a').
Qed.

(** X5. Through every sequence of [selectItem]/[unselectItem] calls the
    array of a section never gets shorter and its slots never move: a slot
    keeps what it held or becomes a hole, and a hole stays a hole (it is
    never filled again). *)
Theorem array_slots_stable
    (ops : list op) (st : State) (t p : string) (a : list (option item)) :
  items_of st t p = Some a ->
  exists a',
    items_of (run ops st) t p = Some a' /\
    length a <= length a' /\
    (forall k o, a' !! k = Some (Some o) -> k < length a ->
                 a !! k = Some (Some o)) /\
    (forall k, a !! k = Some None -> a' !! k = Some None).
Proof.
  intros Ha. destruct (run_later_stage ops st t p a Ha) as (a' & Ha' & Hl & Hs).
  exists a'. split; [exact Ha'|]. split; [exact Hl|]. split.
  - intros k o Hk Hlt. destruct (Hs k Hlt) as [Hc|Hc]; congruence.
  - intros k Hk. pose proof (lookup_lt_Some _ _ _ Hk) as Hlt.
    destruct (Hs k Hlt) as [Hc|Hc]; congruence.
Qed.

Lemma array_slots_stable_witness :
  exists a',
    items_of (run [Select "skills" "Languages" "Rust"] after_scenario)
      "skills" "Languages" = Some a' /\
    2 <= length a' /\ a' !! 0 = Some None.
Proof.
  assert (Ha : items_of after_scenario "skills" "Languages" =
               Some [None; Some (Item "Rust")]) by reflexivity.
  destruct (array_slots_stable [Select "skills" "Languages" "Rust"]
              after_scenario "skills" "Languages" _ Ha)
    as (a' & Ha' & Hlen & _ & Hhole).
  exists a'. split; [exact Ha'|]. split; [exact Hlen|].
  apply Hhole. reflexivity.
Defined.

Lemma indexOfNamedItems_from_hole_throws a x h i0 :
  a !! h = Some None ->
  (forall j o, j < h -> a !! j = Some (Some o) -> item_name o <> x) ->
  indexOfNamedItems_from i0 a x = Throw TypeError.
Proof.
  revert h i0. induction a as [|[o|] a IH]; intros h i0 Hh Hbefore; simpl.
  - done.
  - destruct h as [|h]; [done|]. simpl in Hh.
    destruct (String.eqb_spec (item_name o) x) as [Heq|_].
    + destruct (Hbefore 0 o); [lia | done | done].
    + apply (IH h); [done|]. intros j o' Hj Ho'.
      apply (Hbefore (S j) o'); [lia | done].
  - done.
Qed.

(** X6. A hole blocks later removals for good. Once the array of a section
    has a hole with no element named [i] before it, every later
    [unselectItem(t, p, i)], after any further [selectItem]/[unselectItem]
    calls, throws a [TypeError] and changes nothing. In particular, after
    the first element of a section has been removed, no item can be removed
    from that section any more. *)
Theorem hole_blocks_later_removals
    (ops : list op) (st : State) (t p i : string)
    (a : list (option item)) (h : nat) :
  items_of st t p = Some a ->
  a !! h = Some None ->
  (forall j o, j < h -> a !! j = Some (Some o) -> item_name o <> i) ->
  unselectItem t p i (run ops st) = (run ops st, Throw TypeError).
Proof.
  intros Ha Hh Hbefore.
  destruct (run_later_stage ops st t p a Ha) as (a' & Ha' & Hl & Hs).
  destruct (items_of_Some _ _ _ _ Ha') as (data & sec & H & Hp & <-).
  pose proof (lookup_lt_Some _ _ _ Hh) as Hlt.
  apply (unselectItem_hole _ _ _ _ _ _ _ H Hp).
  apply (indexOfNamedItems_from_hole_throws _ _ h).
  - destruct (Hs h Hlt) as [Hc|Hc]; congruence.
  - intros j o Hj Ho. apply (Hbefore j o Hj).
    destruct (Hs j ltac:(lia)) as [Hc|Hc]; congruence.
Qed.

Lemma hole_blocks_later_removals_witness :
  let st := run [Select "skills" "Languages" "Python"] after_scenario in
  unselectItem "skills" "Languages" "Python" st = (st, Throw TypeError).
Proof.
  intros st.
  assert (Ha : items_of after_scenario "skills" "Languages" =
               Some [None; Some (Item "Rust")]) by reflexivity.
  assert (Hh : [None; Some (Item "Rust")] !! 0 = Some None) by reflexivity.
  apply (hole_blocks_later_removals _ after_scenario "skills" "Languages"
           "Python" _ 0 Ha Hh).
  intros j o Hj. lia.
Defined.

(** * Invariants of the reachable states *)

Lemma names_agree_with_data st t data secs :
  names_agree st ->
  selectedItemsData st !! t = Some data ->
  (forall p sec, secs !! p = Some sec -> section_name sec = p) ->
  names_agree (with_data st t (TaxonomyData (taxonomy_name data) secs)).
Proof.
  intros Hn H Hsecs t' data'. unfold with_data. simpl.
  rewrite lookup_insert. destruct (decide (t = t')) as [<-|Hne].
  - intros [= <-]. simpl. split; [apply (Hn t data H) | exact Hsecs].
  - apply Hn.
Qed.

Lemma step_names_agree st o : names_agree st -> names_agree (step st o).
Proof.
  intros Hn. destruct o as [t p i|t p i]; simpl.
  - destruct (selectedItemsData st !! t) as [data|] eqn:H.
    + destruct (get_property_Inherited_dec (itemsBySection data) p) as [Hk|Hk].
      { unfold state_after. by rewrite (selectItem_inherited _ _ _ _ _ H Hk). }
      rewrite (selectItem_state _ _ _ _ _ H Hk). unfold select_in.
      apply (names_agree_with_data _ _ _ _ Hn H). intros p' sec'.
      rewrite lookup_insert. destruct (decide (p = p')) as [<-|Hne].
      * intros [= <-]. simpl.
        destruct (itemsBySection data !! p) as [sec|] eqn:Hp; [|done].
        apply (proj2 (Hn t data H) p sec Hp).
      * apply (proj2 (Hn t data H)).
    + unfold state_after. by rewrite selectItem_unknown.
  - destruct (selectedItemsData st !! t) as [data|] eqn:H.
    + destruct (itemsBySection data !! p) as [sec|] eqn:Hp.
      * destruct (indexOfNamedItems (items sec) i) as [k|e] eqn:Hk.
        -- rewrite (unselectItem_found_state _ _ _ _ _ _ _ H Hp Hk).
           apply (names_agree_with_data _ _ _ _ Hn H). intros p' sec'.
           rewrite lookup_insert. destruct (decide (p = p')) as [<-|Hne].
           ++ intros [= <-]. simpl. apply (proj2 (Hn t data H) p sec Hp).
           ++ apply (proj2 (Hn t data H)).
        -- unfold state_after. by rewrite (unselectItem_hole _ _ _ _ _ _ _ H Hp Hk).
      * by rewrite (unselectItem_no_section_state _ _ _ _ _ H Hp).
    + unfold state_after. by rewrite unselectItem_unknown.
Qed.

Lemma init_names_agree sel : names_agree (init_state sel).
Proof.
  intros t data. unfold init_state, init_selectedItemsData. simpl.
  rewrite !lookup_insert.
  repeat (destruct (decide _) as [<-|];
          [intros [= <-]; simpl; split; [done|]; intros p sec;
           by rewrite lookup_empty|]).
  by rewrite lookup_empty.
Qed.

Lemma handle_invariant st e :
  wf st /\ names_agree st -> wf (handle st e) /\ names_agree (handle st e).
Proof.
  intros [Hwf Hn]. destruct e as [t|o]; simpl.
  - done.
  - split; [by apply step_wf | by apply step_names_agree].
Qed.

Lemma handle_all_invariant es st :
  wf st /\ names_agree st ->
  wf (handle_all es st) /\ names_agree (handle_all es st).
Proof.
  revert st. induction es as [|e es IH]; intros st Hinv; [done|].
  simpl. by apply IH, handle_invariant.
Qed.

Lemma handle_all_selectedTaxonomy es st :
  selectedTaxonomy (handle_all es st) =
  foldl (fun acc e => match e with Click t => Some t | Call _ => acc end)
    (selectedTaxonomy st) es.
Proof.
  revert st. induction es as [|e es IH]; intros st; [done|].
  simpl. rewrite IH. f_equal. destruct e as [t|o]; [done|].
  apply step_selectedTaxonomy.
Qed.

Lemma last_click_installed es acc :
  Forall click_installed es ->
  (forall t, acc = Some t -> t ∈ taxonomies) ->
  forall t,
    foldl (fun acc e => match e with Click t => Some t | Call _ => acc end) acc es
    = Some t -> t ∈ taxonomies.
Proof.
  intros Hes. revert acc. induction Hes as [|e es He Hes IH]; intros acc Hacc.
  - exact Hacc.
  - simpl. apply IH. destruct e as [t0|o]; [|exact Hacc].
    intros t [= <-]. exact He.
Qed.

(** X7. Invariants of every state reached from the initial one by clicks on
    taxonomy containers and calls of [selectItem]/[unselectItem]: the
    selection data holds exactly the three taxonomy records; every taxonomy
    and section record is stored under its own [name]; the selected
    taxonomy is the one of the last click; and rendering can succeed
    exactly when a taxonomy container has been clicked. *)
Theorem reachable_invariant (es : list event) :
  Forall click_installed es ->
  let st := handle_all es (init_state None) in
  wf st /\ names_agree st /\
  selectedTaxonomy st = last_click es /\
  (can_render st <-> is_Some (last_click es)).
Proof.
  intros Hes st.
  destruct (handle_all_invariant es (init_state None)) as [Hwf Hn];
    [split; [apply init_wf | apply init_names_agree]|].
  assert (Hsel : selectedTaxonomy st = last_click es)
    by apply handle_all_selectedTaxonomy.
  split; [exact Hwf|]. split; [exact Hn|]. split; [exact Hsel|].
  unfold can_render. rewrite Hsel. split.
  - intros (t & -> & _). by eexists.
  - intros [t Ht]. exists t. split; [exact Ht|].
    apply (last_click_installed es None Hes); [done | exact Ht].
Qed.

Lemma reachable_invariant_witness :
  let st := handle_all [Call (Select "skills" "Languages" "Go");
                        Click "interests";
                        Call (Unselect "skills" "Languages" "Go")]
              (init_state None) in
  wf st /\ selectedTaxonomy st = Some "interests".
Proof.
  intros st.
  assert (Hes : Forall click_installed
                  [Call (Select "skills" "Languages" "Go");
                   Click "interests";
                   Call (Unselect "skills" "Languages" "Go")]).
  { repeat constructor. }
  destruct (reachable_invariant _ Hes) as (Hwf & _ & Hsel & _).
  split; [exact Hwf | exact Hsel].
Defined.

(** * Selection, rendering and their composition *)

(** X8. On a known taxonomy, for a section name that is not inherited from
    [Object.prototype], every [selectItem] call appends one record named
    [i] at the end of the array of section [p], whatever the array already
    holds and however the call completes: the number of elements named [i]
    in [p] grows by one and no other count changes. *)
Theorem selectItem_appends_one (st : State) (t p i : string) :
  wf st -> t ∈ taxonomies -> p ∉ object_prototype_keys ->
  let st' := state_after (selectItem t p i) st in
  items_of st' t p = Some (default [] (items_of st t p) ++ [Some (Item i)]) /\
  (forall p' i',
     count_selected st' t p' i' =
     count_selected st t p' i' + (if decide ((p, i) = (p', i')) then 1 else 0)).
Proof.
  intros Hwf Ht Hk st'. pose proof (wf_lookup st t Hwf Ht) as Hs.
  destruct Hs as [data H]. split.
  - unfold st'. rewrite (items_of_selectItem _ _ _ _ _ _ H)
      by (by apply get_property_not_inherited).
    by rewrite decide_True.
  - intros p' i'. apply count_selected_selectItem; [by exists data | exact Hk].
Qed.

Lemma selectItem_appends_one_witness :
  let st := after_scenario in
  let st' := state_after (selectItem "skills" "Languages" "Rust") st in
  items_of st' "skills" "Languages" =
    Some [None; Some (Item "Rust"); Some (Item "Rust")] /\
  count_selected st' "skills" "Languages" "Rust" = 2.
Proof.
  intros st st'.
  assert (Hwf : wf st) by (unfold wf; compute_done).
  assert (Ht : "skills" ∈ taxonomies) by compute_done.
  assert (Hk : "Languages" ∉ object_prototype_keys) by compute_done.
  destruct (selectItem_appends_one st "skills" "Languages" "Rust" Hwf Ht Hk)
    as [H1 H2].
  split; [exact H1|]. exact (H2 "Languages" "Rust").
Defined.

(** X9. Before any taxonomy container has been clicked
    ([self.selectedTaxonomy] still [undefined]), [selectItem] on a known
    taxonomy, for a section name that is not inherited from
    [Object.prototype], throws a [TypeError] in [renderSelected], after the
    mutation: the item stays selected although the call failed. *)
Theorem selectItem_before_first_click (st : State) (t p i : string) :
  wf st -> selectedTaxonomy st = None -> t ∈ taxonomies ->
  p ∉ object_prototype_keys ->
  outcome (selectItem t p i) st = Throw TypeError /\
  items_of (state_after (selectItem t p i) st) t p =
    Some (default [] (items_of st t p) ++ [Some (Item i)]).
Proof.
  intros Hwf Hsel Ht Hk. destruct (wf_lookup st t Hwf Ht) as [data H].
  pose proof (get_property_not_inherited (itemsBySection data) p Hk) as Hni.
  split.
  - unfold outcome. rewrite (selectItem_known _ _ _ _ _ H Hni).
    rewrite renderSelected_unselected; [done| |done].
    pose proof (step_wf st (Select t p i) Hwf) as Hwf'. simpl in Hwf'.
    by rewrite (selectItem_state _ _ _ _ _ H Hni) in Hwf'.
  - rewrite (items_of_selectItem _ _ _ _ _ _ H Hni). by rewrite decide_True.
Qed.

Lemma selectItem_before_first_click_witness :
  outcome (selectItem "skills" "Languages" "Go") (init_state None) =
    Throw TypeError /\
  items_of (state_after (selectItem "skills" "Languages" "Go") (init_state None))
    "skills" "Languages" = Some [Some (Item "Go")].
Proof.
  assert (Hwf : wf (init_state None)) by (unfold wf; compute_done).
  assert (Ht : "skills" ∈ taxonomies) by compute_done.
  assert (Hk : "Languages" ∉ object_prototype_keys) by compute_done.
  exact (selectItem_before_first_click (init_state None) "skills" "Languages"
           "Go" Hwf eq_refl Ht Hk).
Defined.

Lemma renderSelected_context_known st arg t data :
  or_else arg (selectedTaxonomy st) = Some t ->
  selectedItemsData st !! t = Some data ->
  renderSelected_context arg st =
  (st, Normal (SelectedContext (Some t) (Some (itemsBySection data)))).
Proof.
  intros Ht H. unfold renderSelected_context, js_bind.
  rewrite Ht. simpl. by rewrite (get_itemsBySection_own _ _ _ H).
Qed.

(** [selectItem] and [selectItem_context] are the same call: the same state
    is left, and the one throws exactly when the other does. *)
Lemma selectItem_context_agrees st t p i :
  selectItem t p i st =
  ((selectItem_context t p i st).1,
   match (selectItem_context t p i st).2 with
   | Normal _ => Normal tt
   | Throw e => Throw e
   end).
Proof.
  unfold selectItem, selectItem_context, renderSelected, js_bind, js_ret.
  destruct (new_parent t p st) as [s1 [[]|e]]; [|done].
  destruct (new_item t p i s1) as [s2 [[]|e]]; [|done].
  by destruct (renderSelected_context None s2) as [s3 [c|e]].
Qed.

Lemma selectItem_context_known st t p i data :
  selectedItemsData st !! t = Some data ->
  get_property (itemsBySection data) p <> Inherited ->
  selectItem_context t p i st =
  renderSelected_context None (with_data st t (select_in p i data)).
Proof.
  intros H Hp.
  pose proof (after_new_parent_new_item st t p i data H Hp) as Hm.
  unfold selectItem_context. unfold js_bind at 1 in Hm. unfold js_bind at 1.
  destruct (new_parent t p st) as [s1 [[]|e]]; [|done].
  unfold js_bind at 1. by rewrite Hm.
Qed.

(** X10. What [selectItem] renders is the taxonomy selected by the last
    click, not the taxonomy it was called with. For a known taxonomy [t]
    and a section name that is not inherited from [Object.prototype]: with
    another taxonomy [t0] selected, the context that the call builds for
    the template is the one built before the call, so the new item is not
    shown; with [t] itself selected, the context is that of [t] and its
    section [p] ends with the new item. *)
Theorem selectItem_renders_selected_taxonomy (st : State) (t0 t p i : string) :
  wf st -> selectedTaxonomy st = Some t0 -> t0 ∈ taxonomies -> t ∈ taxonomies ->
  p ∉ object_prototype_keys ->
  (t <> t0 ->
   outcome (selectItem_context t p i) st =
   outcome (renderSelected_context None) st) /\
  (t = t0 ->
   exists secs,
     outcome (selectItem_context t p i) st =
       Normal (SelectedContext (Some t0) (Some secs)) /\
     items <$> secs !! p =
       Some (default [] (items_of st t p) ++ [Some (Item i)])).
Proof.
  intros Hwf Hsel Ht0 Ht Hk.
  destruct (wf_lookup st t0 Hwf Ht0) as [data0 H0].
  destruct (wf_lookup st t Hwf Ht) as [data H].
  pose proof (get_property_not_inherited (itemsBySection data) p Hk) as Hni.
  unfold outcome. rewrite (selectItem_context_known _ _ _ _ _ H Hni). split.
  - intros Hne.
    erewrite renderSelected_context_known;
      [| exact Hsel | unfold with_data; simpl; by rewrite lookup_insert_ne].
    by rewrite (renderSelected_context_known _ None t0 data0 Hsel H0).
  - intros ->. rewrite H0 in H. injection H as <-.
    eexists. split.
    + erewrite renderSelected_context_known;
        [reflexivity | exact Hsel | apply lookup_insert_eq].
    + unfold select_in. simpl. rewrite lookup_insert_eq. simpl.
      unfold items_of, section_of. rewrite H0. simpl.
      by destruct (itemsBySection data0 !! p).
Qed.

Lemma selectItem_renders_selected_taxonomy_witness :
  let st := init_state (Some "skills") in
  outcome (selectItem_context "interests" "Housing" "Zoning") st =
  outcome (renderSelected_context None) st.
Proof.
  intros st.
  assert (Hwf : wf st) by (unfold wf; compute_done).
  assert (Ht0 : "skills" ∈ taxonomies) by compute_done.
  assert (Ht : "interests" ∈ taxonomies) by compute_done.
  assert (Hk : "Housing" ∉ object_prototype_keys) by compute_done.
  apply (selectItem_renders_selected_taxonomy st "skills" "interests"
           "Housing" "Zoning" Hwf eq_refl Ht0 Ht Hk).
  discriminate.
Defined.

(** X11. [renderSelected] called with the name of a known taxonomy renders
    the sections of that taxonomy whatever taxonomy is selected, also
    before any click, and leaves the state unchanged; called with the empty
    string (or nothing) it falls back to the selected taxonomy. *)
Theorem renderSelected_context_argument
    (st : State) (t : string) (data : taxonomyData) :
  t ∈ taxonomies -> selectedItemsData st !! t = Some data ->
  renderSelected_context (Some t) st =
    (st, Normal (SelectedContext (Some t) (Some (itemsBySection data)))) /\
  renderSelected_context (Some "") st = renderSelected_context None st.
Proof.
  intros Ht H. split; [|done].
  apply renderSelected_context_known; [|done].
  unfold or_else, truthy_string.
  destruct (String.eqb_spec t "") as [->|]; [|done].
  exfalso. revert Ht. compute_done.
Qed.

Lemma renderSelected_context_argument_witness :
  renderSelected_context (Some "interests") (init_state None) =
  (init_state None, Normal (SelectedContext (Some "interests") (Some ∅))).
Proof.
  assert (Ht : "interests" ∈ taxonomies) by compute_done.
  apply (renderSelected_context_argument (init_state None) "interests"
           (TaxonomyData "interests" ∅) Ht).
  reflexivity.
Defined.

(** * The round trip on a fresh item *)

Lemma indexOfNamedItems_from_fresh (its : list item) (x : string)
    (rest : list (option item)) (i0 : Z) :
  Forall (fun o => item_name o <> x) its ->
  indexOfNamedItems_from i0 ((Some <$> its) ++ Some (Item x) :: rest) x =
  Normal (i0 + Z.of_nat (length its))%Z.
Proof.
  intros Hall. revert i0. induction Hall as [|o its Ho Hall IH]; intros i0; simpl.
  - rewrite String.eqb_refl. f_equal. lia.
  - destruct (String.eqb_spec (item_name o) x) as [Heq|_]; [done|].
    rewrite IH. f_equal. lia.
Qed.

Lemma elements_of_present (its : list item) : elements_of (Some <$> its) = its.
Proof.
  induction its as [|o its IH]; [done|].
  change (o :: elements_of (Some <$> its) = o :: its). by rewrite IH.
Qed.

(** X12. The round trip that works: when the section name [p] is not
    inherited from [Object.prototype] and the array of section [p] has no
    hole and no element named [i] (or the section does not exist yet),
    [selectItem(t, p, i)] followed by [unselectItem(t, p, i)] leaves the
    array with the elements it had, in the same order, followed by one hole;
    with a taxonomy selected for rendering both calls complete normally. *)
Theorem round_trip_on_fresh_item
    (st : State) (t p i : string) (its : list item) :
  wf st -> t ∈ taxonomies -> can_render st -> p ∉ object_prototype_keys ->
  default [] (items_of st t p) = Some <$> its ->
  Forall (fun o => item_name o <> i) its ->
  let st1 := state_after (selectItem t p i) st in
  let st2 := state_after (unselectItem t p i) st1 in
  outcome (selectItem t p i) st = Normal tt /\
  outcome (unselectItem t p i) st1 = Normal tt /\
  items_of st2 t p = Some ((Some <$> its) ++ [None]) /\
  elements_of (default [] (items_of st2 t p)) = its.
Proof.
  intros Hwf Ht Hr Hpk Hits Hall st1 st2.
  destruct (wf_lookup st t Hwf Ht) as [data H].
  pose proof (get_property_not_inherited (itemsBySection data) p Hpk) as Hni.
  pose proof (step_wf st (Select t p i) Hwf) as Hwf1.
  pose proof (can_render_step st (Select t p i) Hr) as Hr1.
  change (step st (Select t p i)) with st1 in Hwf1, Hr1.
  assert (H1 : items_of st1 t p = Some ((Some <$> its) ++ [Some (Item i)])).
  { unfold st1. rewrite (items_of_selectItem _ _ _ _ _ _ H Hni).
    rewrite decide_True by done. by rewrite Hits. }
  destruct (items_of_Some _ _ _ _ H1) as (data1 & sec1 & Hd1 & Hp1 & Ha1).
  assert (Hk : indexOfNamedItems (items sec1) i =
               Normal (Z.of_nat (length its))).
  { rewrite Ha1. unfold indexOfNamedItems.
    by rewrite (indexOfNamedItems_from_fresh its i [] 0 Hall). }
  assert (H2 : items_of st2 t p = Some ((Some <$> its) ++ [None])).
  { unfold st2. rewrite (items_of_unselectItem_found _ _ _ _ _ _ _ Hd1 Hp1 Hk).
    rewrite Ha1. unfold delete_index.
    rewrite (proj2 (Z.ltb_ge _ 0)) by lia. rewrite Nat2Z.id.
    rewrite insert_app_r_alt by (by rewrite length_fmap).
    by rewrite length_fmap, Nat.sub_diag. }
  split; [|split; [|split]].
  - unfold outcome. rewrite (selectItem_known _ _ _ _ _ H Hni).
    rewrite <- (selectItem_state _ _ _ _ _ H Hni). fold st1.
    by rewrite (renderSelected_ok st1 Hwf1 Hr1).
  - unfold outcome. rewrite (unselectItem_found _ _ _ _ _ _ _ Hd1 Hp1 Hk).
    rewrite <- (unselectItem_found_state _ _ _ _ _ _ _ Hd1 Hp1 Hk). fold st2.
    rewrite renderSelected_ok; [done| |].
    + apply (step_wf st1 (Unselect t p i) Hwf1).
    + apply (can_render_step st1 (Unselect t p i) Hr1).
  - exact H2.
  - rewrite H2. simpl. rewrite elements_of_app, elements_of_present.
    apply app_nil_r.
Qed.

Lemma round_trip_on_fresh_item_witness :
  let st := state_after (selectItem "skills" "Languages" "Go")
              (init_state (Some "skills")) in
  let st2 := state_after (unselectItem "skills" "Languages" "Rust")
               (state_after (selectItem "skills" "Languages" "Rust") st) in
  items_of st2 "skills" "Languages" = Some [Some (Item "Go"); None] /\
  elements_of (default [] (items_of st2 "skills" "Languages")) = [Item "Go"].
Proof.
  intros st st2.
  assert (Hwf : wf st) by (unfold wf; compute_done).
  assert (Ht : "skills" ∈ taxonomies) by compute_done.
  assert (Hr : can_render st).
  { exists "skills". split; [reflexivity | exact Ht]. }
  assert (Hits : default [] (items_of st "skills" "Languages") =
                 Some <$> [Item "Go"]) by reflexivity.
  assert (Hall : Forall (fun o => item_name o <> "Rust") [Item "Go"]).
  { repeat constructor. simpl. discriminate. }
  assert (Hpk : "Languages" ∉ object_prototype_keys) by compute_done.
  destruct (round_trip_on_fresh_item st "skills" "Languages" "Rust" [Item "Go"]
              Hwf Ht Hr Hpk Hits Hall) as (_ & _ & H2 & H3).
  split; [exact H2 | exact H3].
Defined.

(** * Grouping a taxonomy by section *)

Lemma record_ok_weaken seen item k sec :
  record_ok seen k sec -> record_ok (seen ++ [item]) k sec.
Proof.
  intros ((d & Hd & Ht & Hs & Hn) & Hall & Hsub). split; [|split].
  - exists d. split; [|done]. apply elem_of_app. by left.
  - done.
  - by apply sublist_inserts_r.
Qed.

Lemma record_ok_open seen item :
  truthy_string (title item) = true ->
  record_ok (seen ++ [item]) (name item) (section_record_of item []).
Proof.
  intros Ht. split; [|split].
  - exists item. split; [|done]. apply elem_of_app. right. by apply list_elem_of_singleton.
  - constructor.
  - apply sublist_nil_l.
Qed.

Lemma record_ok_push seen item k sec :
  record_ok (seen ++ [item]) k sec ->
  sublist (selection_items sec) seen ->
  parent item = Some k ->
  record_ok (seen ++ [item]) k
    (SelectionSection (selection_name sec) (selection_title sec)
       (selection_parent sec) (selection_items sec ++ [item])).
Proof.
  intros ((d & Hd & Ht & Hs & Hn) & Hall & _) Hsub Hp. split; [|split]; simpl.
  - exists d. split; [done|]. split; [done|]. split; [|done].
    rewrite Hs. reflexivity.
  - apply Forall_app. split; [done|]. by constructor.
  - by apply sublist_app.
Qed.

Lemma record_ok_sublist seen k sec :
  record_ok seen k sec -> sublist (selection_items sec) seen.
Proof. by intros (_ & _ & H). Qed.

Lemma truthy_string_Some v : truthy_string v = true -> exists x, v = Some x /\ x <> "".
Proof.
  destruct v as [x|]; [|done]. simpl. intros H. exists x. split; [done|].
  intros ->. done.
Qed.

Lemma loose_equals_Some x b : loose_equals (Some x) b = true -> b = Some x.
Proof.
  destruct b as [y|]; [|done]. simpl. by intros ->%String.eqb_eq.
Qed.

Lemma open_section_invariant g seen item :
  grouping_invariant g seen -> opened_invariant (open_section g item) seen item.
Proof.
  intros [Hcur Hrec]. unfold open_section. lazy zeta.
  assert (Hold : forall k sec, grouped g !! k = Some sec ->
                   record_ok (seen ++ [item]) k sec /\
                   sublist (selection_items sec) seen).
  { intros k sec Hk. split; [by apply record_ok_weaken, Hrec|].
    by apply (record_ok_sublist seen k), Hrec. }
  match goal with
  | |- context [?a && truthy_string (title item)] =>
      destruct (a && truthy_string (title item)) eqn:Hop
  end.
  - apply andb_true_iff in Hop as [_ Ht]. unfold store_section.
    destruct (String.eqb_spec (name item) "__proto__") as [Hn|Hn]; simpl.
    + split; simpl; [|exact Hold].
      intros s [= <-]. right. by split.
    + split; simpl.
      * intros s [= <-]. left. by rewrite lookup_insert_eq.
      * intros k sec. rewrite lookup_insert.
        destruct (decide (name item = k)) as [<-|Hne]; [|apply Hold].
        intros [= <-]. split; [by apply record_ok_open | apply sublist_nil_l].
  - split; simpl; [exact Hcur | exact Hold].
Qed.

Lemma push_into_section_invariant g seen item :
  opened_invariant g seen item ->
  exists g', push_into_section g item = Normal g' /\
             grouping_invariant g' (seen ++ [item]).
Proof.
  intros [Hcur Hrec]. unfold push_into_section.
  destruct (truthy_string (parent item) && loose_equals (parent item) (currSection g))
    eqn:Hpush.
  - apply andb_true_iff in Hpush as [Hp Heq].
    destruct (truthy_string_Some _ Hp) as (x & Hx & _). rewrite Hx in *.
    apply loose_equals_Some in Heq. simpl.
    destruct (grouped g !! x) as [sec|] eqn:Hsec.
    + eexists. split; [reflexivity|]. split; simpl.
      * intros s Hs. left. rewrite lookup_insert.
        destruct (decide (x = s)) as [|Hne]; [done|].
        destruct (Hcur s Hs) as [Hown|[-> _]]; [done|].
        rewrite Heq in Hs. by injection Hs as ->.
      * intros k sec'. rewrite lookup_insert.
        destruct (decide (x = k)) as [<-|Hne].
        -- intros [= <-]. destruct (Hrec x sec Hsec) as [Hok Hsub].
           by apply record_ok_push.
        -- intros Hk. by apply Hrec.
    + destruct (Hcur x Heq) as [[sec' Hown]|[-> [sec' Hpr]]]; [congruence|].
      simpl. rewrite Hpr. eexists. split; [reflexivity|]. split; simpl.
      * intros s Hs. destruct (Hcur s Hs) as [Hown|[-> _]]; [by left|].
        right. by split.
      * intros k sec Hk. by apply Hrec.
  - exists g. split; [done|]. split; [exact Hcur|].
    intros k sec Hk. by apply Hrec.
Qed.

Lemma group_item_invariant g seen item :
  grouping_invariant g seen ->
  exists g', group_item g item = Normal g' /\
             grouping_invariant g' (seen ++ [item]).
Proof.
  intros Hinv. apply push_into_section_invariant.
  by apply open_section_invariant.
Qed.

Lemma group_items_invariant taxonomy g seen :
  grouping_invariant g seen ->
  exists g', group_items g taxonomy = Normal g' /\
             grouping_invariant g' (seen ++ taxonomy).
Proof.
  revert g seen. induction taxonomy as [|item rest IH]; intros g seen Hinv.
  - exists g. split; [done|]. by rewrite app_nil_r.
  - destruct (group_item_invariant g seen item Hinv) as (g1 & Hg1 & Hinv1).
    destruct (IH g1 _ Hinv1) as (g' & Hg' & Hinv').
    exists g'. simpl. rewrite Hg1. split; [exact Hg'|].
    by rewrite <- app_assoc in Hinv'.
Qed.

(** X13. The grouping loop of [renderSelection] never throws, whatever the
    taxonomy array holds (no root, sections without items, items before
    their section, repeated names): the section it pushes into always
    exists. Every record of the result is stored under the name of a titled
    descriptor of the array, whose [name], [title] and [parent] it carries,
    and its items are descriptors of the array, in the order of the array,
    whose [parent] is that name. *)
Theorem renderSelection_grouping_sound (taxonomy : list descriptor) :
  exists secs,
    renderSelection_itemsBySection taxonomy = Normal secs /\
    forall k sec, secs !! k = Some sec -> record_ok taxonomy k sec.
Proof.
  destruct (group_items_invariant taxonomy (Grouping None None ∅ None) [])
    as (g' & Hg' & _ & Hrec).
  - split; [done|]. intros k sec. simpl. by rewrite lookup_empty.
  - exists (grouped g'). unfold renderSelection_itemsBySection. rewrite Hg'.
    split; [done|]. exact Hrec.
Qed.

Lemma group_items_app g l1 l2 :
  group_items g (l1 ++ l2) =
  match group_items g l1 with
  | Normal g' => group_items g' l2
  | Throw e => Throw e
  end.
Proof.
  revert g. induction l1 as [|d l1 IH]; intros g; [done|].
  simpl. destruct (group_item g d); [apply IH | done].
Qed.

Lemma group_item_root root :
  truthy_string (parent root) = false -> name root <> "" ->
  group_item (Grouping None None ∅ None) root =
  Normal (Grouping (Some (name root)) None ∅ None).
Proof.
  intros Hp Hn. unfold group_item, open_section, push_into_section.
  rewrite Hp. simpl.
  assert (Hle : loose_equals (parent root) (Some (name root)) = false).
  { destruct (parent root) as [x|]; [|done]. simpl in *.
    apply negb_false_iff, String.eqb_eq in Hp as ->.
    by apply String.eqb_neq. }
  rewrite Hle. simpl. by rewrite ?Hp.
Qed.

Lemma group_item_section g r s :
  taxonomySet g = Some r -> r <> "" ->
  parent s = Some r -> truthy_string (title s) = true -> name s <> r ->
  name s <> "__proto__" ->
  group_item g s =
  Normal (Grouping (Some r) (Some (name s))
            (<[name s := section_record_of s []]> (grouped g))
            (grouped_prototype g)).
Proof.
  intros Hts Hr Hp Ht Hn Hproto.
  unfold group_item, open_section, push_into_section, store_section,
    section_record_of.
  rewrite Hp, Hts, Ht. simpl.
  rewrite (proj2 (String.eqb_neq r "") Hr). simpl.
  rewrite String.eqb_refl. simpl.
  rewrite (proj2 (String.eqb_neq (name s) "__proto__") Hproto). simpl.
  rewrite ?Hp. simpl. rewrite ?(proj2 (String.eqb_neq r "") Hr). simpl.
  by rewrite (proj2 (String.eqb_neq r (name s)) (not_eq_sym Hn)).
Qed.

Lemma group_item_member g r sn sec d :
  taxonomySet g = Some r -> currSection g = Some sn ->
  sn <> "" -> sn <> r -> parent d = Some sn ->
  grouped g !! sn = Some sec ->
  group_item g d =
  Normal (Grouping (Some r) (Some sn)
            (<[sn := SelectionSection (selection_name sec) (selection_title sec)
                       (selection_parent sec) (selection_items sec ++ [d])]>
               (grouped g))
            (grouped_prototype g)).
Proof.
  intros Hts Hcs Hsn Hne Hp Hsec.
  unfold group_item, open_section, push_into_section.
  rewrite Hp, Hts, Hcs. simpl.
  rewrite (proj2 (String.eqb_neq sn "") Hsn). simpl.
  rewrite (proj2 (String.eqb_neq sn r) Hne). simpl.
  rewrite ?Hp, ?Hcs. simpl.
  rewrite ?(proj2 (String.eqb_neq sn "") Hsn). simpl.
  rewrite String.eqb_refl. by rewrite Hsec.
Qed.

Lemma group_items_members its g r s acc :
  taxonomySet g = Some r -> currSection g = Some (name s) ->
  name s <> "" -> name s <> r ->
  Forall (fun d => parent d = Some (name s)) its ->
  grouped g !! name s = Some (section_record_of s acc) ->
  group_items g its =
  Normal (Grouping (Some r) (Some (name s))
            (<[name s := section_record_of s (acc ++ its)]> (grouped g))
            (grouped_prototype g)).
Proof.
  intros Hts Hcs Hsn Hne Hall. revert g acc Hts Hcs.
  induction Hall as [|d its Hd Hall IH]; intros g acc Hts Hcs Hsec.
  - simpl. rewrite app_nil_r, insert_id by done.
    destruct g as [ts cs m pr]. simpl in *. by subst.
  - simpl.
    rewrite (group_item_member g r (name s) _ d Hts Hcs Hsn Hne Hd Hsec).
    rewrite (IH _ (acc ++ [d])); [|done|done|simpl; apply lookup_insert_eq].
    simpl. by rewrite insert_insert_eq, <- app_assoc.
Qed.

Lemma group_items_blocks blocks g r :
  taxonomySet g = Some r -> r <> "" ->
  Forall (fun b =>
            parent b.1 = Some r /\ truthy_string (title b.1) = true /\
            name b.1 <> "" /\ name b.1 <> r /\ name b.1 <> "__proto__" /\
            Forall (fun d => parent d = Some (name b.1)) b.2) blocks ->
  exists cs,
    group_items g (concat ((fun b => b.1 :: b.2) <$> blocks)) =
    Normal (Grouping (Some r) cs
              (foldl (fun m b => <[name b.1 := section_record_of b.1 b.2]> m)
                 (grouped g) blocks)
              (grouped_prototype g)).
Proof.
  intros Hts Hr Hall. revert g Hts.
  induction Hall as [|[s its] blocks (Hp & Ht & Hsn & Hne & Hproto & Hits) Hall IH];
    intros g Hts.
  - exists (currSection g). simpl. destruct g as [ts cs m pr]. simpl in *. by subst.
  - simpl in *. rewrite (group_item_section g r s Hts Hr Hp Ht Hne Hproto).
    rewrite group_items_app.
    rewrite (group_items_members its
               (Grouping (Some r) (Some (name s))
                  (<[name s := section_record_of s []]> (grouped g))
                  (grouped_prototype g))
               r s [] eq_refl eq_refl Hsn Hne Hits)
      by (simpl; apply lookup_insert_eq).
    simpl. rewrite insert_insert_eq.
    destruct (IH (Grouping (Some r) (Some (name s))
                    (<[name s := section_record_of s its]> (grouped g))
                    (grouped_prototype g)) eq_refl)
      as [cs Hcs].
    exists cs. exact Hcs.
Qed.

Lemma foldl_insert_lookup_other (blocks : list (descriptor * list descriptor))
    (m : gmap string selectionSection) k :
  k ∉ (fun b => name b.1) <$> blocks ->
  foldl (fun m b => <[name b.1 := section_record_of b.1 b.2]> m) m blocks !! k
  = m !! k.
Proof.
  revert m. induction blocks as [|b blocks IH]; intros m Hk; [done|].
  simpl in *. apply not_elem_of_cons in Hk as [Hne Hk].
  rewrite IH by done. by rewrite lookup_insert_ne.
Qed.

Lemma foldl_insert_lookup_block (blocks : list (descriptor * list descriptor))
    (m : gmap string selectionSection) s its :
  NoDup ((fun b => name b.1) <$> blocks) ->
  (s, its) ∈ blocks ->
  foldl (fun m b => <[name b.1 := section_record_of b.1 b.2]> m) m blocks
    !! name s = Some (section_record_of s its).
Proof.
  revert m. induction blocks as [|b blocks IH]; intros m Hnd Hin.
  - by apply elem_of_nil in Hin.
  - simpl in *. apply NoDup_cons in Hnd as [Hb Hnd].
    apply elem_of_cons in Hin as [<-|Hin].
    + rewrite foldl_insert_lookup_other by done. simpl. apply lookup_insert_eq.
    + by apply IH.
Qed.

(** X14. On a taxonomy array laid out as root, then each section followed
    by its items (sections titled, with the root as parent and distinct
    non-empty names other than the root's and other than ["__proto__"];
    items with their section as parent), the grouping yields exactly one
    record per section, carrying the section's [name], [title] and
    [parent] and holding exactly its items in order. *)
Theorem renderSelection_groups_flat_taxonomy
    (root : descriptor) (blocks : list (descriptor * list descriptor)) :
  well_laid_out root blocks ->
  NoDup ((fun b => name b.1) <$> blocks) ->
  exists secs,
    renderSelection_itemsBySection (flat_taxonomy root blocks) = Normal secs /\
    (forall s its, (s, its) ∈ blocks ->
                   secs !! name s = Some (section_record_of s its)) /\
    (forall k, k ∉ (fun b => name b.1) <$> blocks -> secs !! k = None).
Proof.
  intros (Hp & Hn & Hall) Hnd.
  unfold renderSelection_itemsBySection, flat_taxonomy. simpl.
  rewrite (group_item_root root Hp Hn).
  destruct (group_items_blocks blocks (Grouping (Some (name root)) None ∅ None)
              (name root) eq_refl Hn Hall) as [cs ->].
  eexists. split; [reflexivity|]. simpl. split.
  - intros s its Hin. by apply foldl_insert_lookup_block.
  - intros k Hk. rewrite foldl_insert_lookup_other by done. apply lookup_empty.
Qed.

Lemma renderSelection_groups_flat_taxonomy_witness :
  let root := Descriptor "skills" None None in
  let languages := Descriptor "Languages" (Some "skills") (Some "Programming languages") in
  let go := Descriptor "Go" (Some "Languages") None in
  let rust := Descriptor "Rust" (Some "Languages") None in
  let tools := Descriptor "Tools" (Some "skills") (Some "Tools") in
  exists secs,
    renderSelection_itemsBySection [root; languages; go; rust; tools] = Normal secs /\
    secs !! "Languages" = Some (section_record_of languages [go; rust]) /\
    secs !! "Tools" = Some (section_record_of tools []).
Proof.
  intros root languages go rust tools.
  assert (Hw : well_laid_out root [(languages, [go; rust]); (tools, [])]).
  { split; [reflexivity|]. split; [discriminate|].
    repeat constructor; simpl; discriminate. }
  assert (Hnd : NoDup ((fun b => name b.1) <$>
                         [(languages, [go; rust]); (tools, [])])) by compute_done.
  destruct (renderSelection_groups_flat_taxonomy root _ Hw Hnd)
    as (secs & Hr & Hin & _).
  exists secs. split; [exact Hr|]. split.
  - apply (Hin languages [go; rust]). apply elem_of_cons. by left.
  - apply (Hin tools []). apply elem_of_cons. right. apply elem_of_cons. by left.
Defined.
